(** * SettingsModal: form state and submission of the settings dialog

    A shallow embedding of [frontend/src/components/settings-model/index.tsx]:
    the form state holder ([updateValue]) and the submission handler
    ([handleSubmit]) of the [SettingsModal] component, with the properties of
    the request body, of validation and of the close callback proved about
    them.

    Conventions of the embedding:
    - a JavaScript string is a [string]; its characters are code units, of
      which the ones below 256 are representable;
    - a JavaScript object is the list of its own enumerable properties in
      enumeration order (array-index keys first, in ascending order, then the
      other keys in creation order);
    - [handleSubmit] runs in a small monad that records the calls made to the
      outside ([alert], [console.error], [fetchSecret], [sendRequest],
      [onClose]) and completes normally, by [return], or by a thrown error;
    - the outcome of the two awaited collaborators is given by an environment;
      [alert], [console.error] and [onClose] return without throwing;
    - [Number.prototype.toString] belongs to the platform: the model is
      parametric in the type of numbers and in their string form. *)

From Stdlib Require Import String Ascii List ZArith NArith Bool Lia DecimalString.
Import ListNotations.

Set Implicit Arguments.
Set Warnings "-register-all".

Local Open Scope list_scope.
Local Open Scope string_scope.

(* ================================================================== *)
(** ** Strings: [trim] and [split] *)

(** WhiteSpace and LineTerminator code units below 256: TAB, LF, VT, FF,
    CR, SP and NBSP. *)
Definition isWhiteSpace (c : ascii) : bool :=
  let n := N_of_ascii c in
  ((9 <=? n) && (n <=? 13) || (n =? 32) || (n =? 160))%N.

Definition isEmpty (s : string) : bool :=
  match s with
  | EmptyString => true
  | String _ _ => false
  end.

Fixpoint trimStart (s : string) : string :=
  match s with
  | EmptyString => EmptyString
  | String c r => if isWhiteSpace c then trimStart r else s
  end.

Fixpoint trimEnd (s : string) : string :=
  match s with
  | EmptyString => EmptyString
  | String c r =>
      let r' := trimEnd r in
      if isWhiteSpace c && isEmpty r' then EmptyString else String c r'
  end.

(** [String.prototype.trim]. *)
Definition trim (s : string) : string := trimEnd (trimStart s).

(** [String.prototype.split] with a separator of one character: the
    segments between the separators, in order; the empty string splits into
    one empty segment. *)
Fixpoint split (sep : ascii) (s : string) : list string :=
  match s with
  | EmptyString => [EmptyString]
  | String c r =>
      if Ascii.eqb c sep then EmptyString :: split sep r
      else match split sep r with
           | seg :: segs => String c seg :: segs
           | [] => [String c EmptyString]
           end
  end.

Definition comma : ascii := ","%char.

Definition dquote : string := String (ascii_of_nat 34) EmptyString.

(** A template literal renders a missing value as [undefined]. *)
Definition templateString (o : option string) : string :=
  match o with
  | Some s => s
  | None => "undefined"
  end.

(* ================================================================== *)
(** ** Objects: own properties in enumeration order *)

Definition obj (A : Type) : Type := list (string * A).

Definition keys {A} (o : obj A) : list string := map fst o.

(** [o[k]] on own properties: [None] stands for [undefined]. *)
Fixpoint obj_get {A} (k : string) (o : obj A) : option A :=
  match o with
  | [] => None
  | (k', v) :: r => if String.eqb k k' then Some v else obj_get k r
  end.

Definition obj_has {A} (k : string) (o : obj A) : bool :=
  match obj_get k o with
  | Some _ => true
  | None => false
  end.

Definition isDigit (c : ascii) : bool :=
  let n := N_of_ascii c in ((48 <=? n) && (n <=? 57))%N.

Fixpoint digitsValue (s : string) (acc : N) : option N :=
  match s with
  | EmptyString => Some acc
  | String c r =>
      if isDigit c then digitsValue r (acc * 10 + (N_of_ascii c - 48))%N
      else None
  end.

(** An array index is a canonical numeric string below [2^32 - 1]. *)
Definition arrayIndex (k : string) : option N :=
  match k with
  | EmptyString => None
  | String c r =>
      if Ascii.eqb c "0"%char && negb (isEmpty r) then None
      else match digitsValue k 0 with
           | Some n => if (n <? 4294967295)%N then Some n else None
           | None => None
           end
  end.

(** [keyBefore k k']: a property [k] is enumerated before a property [k']
    whatever the order of their creation. *)
Definition keyBefore (k k' : string) : bool :=
  match arrayIndex k, arrayIndex k' with
  | Some a, Some b => (a <? b)%N
  | Some _, None => true
  | None, _ => false
  end.

Fixpoint obj_replace {A} (k : string) (v : A) (o : obj A) : obj A :=
  match o with
  | [] => []
  | (k', v') :: r =>
      if String.eqb k k' then (k', v) :: r else (k', v') :: obj_replace k v r
  end.

Fixpoint obj_add {A} (k : string) (v : A) (o : obj A) : obj A :=
  match o with
  | [] => [(k, v)]
  | (k', v') :: r =>
      if keyBefore k k' then (k, v) :: o else (k', v') :: obj_add k v r
  end.

(** A property written by an object literal, [{ ...o, [k]: v }]: an
    existing property keeps its place, a new one is created. *)
Definition obj_define {A} (k : string) (v : A) (o : obj A) : obj A :=
  if obj_has k o then obj_replace k v o else obj_add k v o.

(** An assignment [o[k] = v] to an object made by [{}]: as [obj_define],
    except for the key [__proto__], which [Object.prototype] intercepts and
    which creates no own property. *)
Definition obj_assign {A} (k : string) (v : A) (o : obj A) : obj A :=
  if String.eqb k "__proto__" then o else obj_define k v o.

(** The shape of the property list of an object: no key twice, and the
    keys in enumeration order. *)
Fixpoint obj_wf {A} (o : obj A) : bool :=
  match o with
  | [] => true
  | (k, _) :: r =>
      forallb (fun e => negb (String.eqb (fst e) k) && negb (keyBefore (fst e) k)) r
      && obj_wf r
  end.

(** The same keys in the same order, each value changed by [f]. *)
Definition obj_map {A B} (f : A -> B) (o : obj A) : obj B :=
  map (fun e => (fst e, f (snd e))) o.

(** Field names are ordinary property names: none of them is [__proto__],
    the one name whose assignment creates no property. *)
Definition plainKeys {A} (o : obj A) : bool :=
  forallb (fun e => negb (String.eqb (fst e) "__proto__")) o.

(* ================================================================== *)
(** ** Errors, completions and the recording monad *)

(** What a [catch] clause receives. [Rejection d] is a value thrown by a
    collaborator, [d] being the string form of [error.body.detail] when that
    chain reaches a value; [TypeError] is a property read on [undefined]. *)
Inductive JsError : Type :=
| TypeError
| Rejection (detail : option string).

(** [error?.body?.detail]. *)
Definition errorDetail (e : JsError) : option string :=
  match e with
  | TypeError => None
  | Rejection d => d
  end.

(** The result of an awaited promise. *)
Inductive Settled (A : Type) : Type :=
| Fulfilled (a : A)
| Rejected (e : JsError).

Arguments Fulfilled {A} a.
Arguments Rejected {A} e.

Inductive Completion (A : Type) : Type :=
| Normal (a : A)
| Return
| Throw (e : JsError).

Arguments Normal {A} a.
Arguments Return {A}.
Arguments Throw {A} e.

Section Model.

Variable number : Type.
Variable Number_toString : number -> string.

(* ------------------------------------------------------------------ *)
(** ** Field descriptors *)

(** [string | number | boolean]. *)
Inductive Value : Type :=
| VString (s : string)
| VNumber (n : number)
| VBoolean (b : bool).

(** [value.toString()]. *)
Definition toString (v : Value) : string :=
  match v with
  | VString s => s
  | VNumber n => Number_toString n
  | VBoolean true => "true"
  | VBoolean false => "false"
  end.

Inductive InputType : Type :=
| TyString | TyNumber | TyBoolean | TyList | TyText.

(** [InputConfig]. A property that the object does not have is [None];
    [type] and [required] are missing only in an entry that [updateValue]
    made for a key the Field Set did not have. *)
Record InputConfig : Type := mkInputConfig {
  value : Value;
  is_secret : option bool;
  type : option InputType;
  placeholder : option string;
  required : option bool
}.

Definition FieldSet : Type := obj InputConfig.

(* ------------------------------------------------------------------ *)
(** ** The form state holder *)

(** [{ ...prevState[key], value: newValue }]. *)
Definition withValue (prev : option InputConfig) (newValue : Value) : InputConfig :=
  match prev with
  | Some c =>
      {| value := newValue; is_secret := is_secret c; type := type c;
         placeholder := placeholder c; required := required c |}
  | None =>
      {| value := newValue; is_secret := None; type := None;
         placeholder := None; required := None |}
  end.

(** The state update of [updateValue(key, newValue)]. *)
Definition updateValue (key : string) (newValue : Value) (prevState : FieldSet) : FieldSet :=
  obj_define key (withValue (obj_get key prevState) newValue) prevState.

(** [getInputType]. *)
Definition getInputType (inputConfig : InputConfig) : string :=
  match is_secret inputConfig with
  | Some true => "password"
  | _ => match type inputConfig with
         | Some TyNumber => "number"
         | _ => "text"
         end
  end.

(* ------------------------------------------------------------------ *)
(** ** Requests and recorded calls *)

(** What [data] can hold: a field value, an array, an object. *)
Inductive JsVal : Type :=
| JPrim (v : Value)
| JArray (items : list JsVal)
| JObject (props : list (string * JsVal)).

(** The argument of [sendRequest]; [body] is the value given to
    [JSON.stringify], [accessToken] is [None] for [null]. *)
Record Request : Type := mkRequest {
  url : string;
  method : string;
  accessToken : option string;
  body : JsVal;
  headers : list (string * string)
}.

Inductive Event : Type :=
| EvAlert (msg : string)
| EvConsoleError (label : string) (e : JsError)
| EvFetchSecret
| EvSendRequest (r : Request)
| EvOnClose.

(** The collaborators: how [fetchSecret()] and [sendRequest(r)] settle. *)
Record Env : Type := mkEnv {
  fetchSecret : Settled string;
  sendRequest : Request -> Settled unit
}.

Record Props : Type := mkProps {
  botId : option string;
  modelType : string
}.

Definition M (A : Type) : Type := (list Event * Completion A)%type.

Definition ret {A} (a : A) : M A := ([], Normal a).

Definition bind {A B} (m : M A) (f : A -> M B) : M B :=
  match m with
  | (t, Normal a) => let (t', c) := f a in ((t ++ t')%list, c)
  | (t, Return) => (t, Return)
  | (t, Throw e) => (t, Throw e)
  end.

Definition emit (ev : Event) : M unit := ([ev], Normal tt).

Definition early_return {A} : M A := ([], Return).

Definition throw {A} (e : JsError) : M A := ([], Throw e).

Notation "x <- m ;; k" := (bind m (fun x => k))
  (at level 61, m at next level, right associativity).
Notation "m ;; k" := (bind m (fun _ => k))
  (at level 61, right associativity).

(** Reading a property of [o[k]]: a [TypeError] when [o[k]] is
    [undefined]. *)
Definition getField (inputElements : FieldSet) (key : string) : M InputConfig :=
  match obj_get key inputElements with
  | Some c => ret c
  | None => throw TypeError
  end.

(* ------------------------------------------------------------------ *)
(** ** The submission handler *)

(** [c.required === true && !c.value.toString().trim()]. *)
Definition missingRequired (c : InputConfig) : bool :=
  match required c with
  | Some true => isEmpty (trim (toString (value c)))
  | _ => false
  end.

(** The loop of credentials mode over the keys still to visit. *)
Fixpoint credentialsLoop (inputElements : FieldSet) (todo : list string)
  (credentials : obj JsVal) : M (obj JsVal) :=
  match todo with
  | [] => ret credentials
  | key :: rest =>
      c <- getField inputElements key ;;
      if missingRequired c then
        emit (EvAlert (key ++ " is required")) ;; early_return
      else
        credentialsLoop inputElements rest
          (obj_assign key (JPrim (value c)) credentials)
  end.

(** [value.toString().split(',').map(item => item.trim())]. *)
Definition listValue (v : Value) : JsVal :=
  JArray (map (fun item => JPrim (VString (trim item))) (split comma (toString v))).

(** The loop of install mode over the keys still to visit. *)
Fixpoint installLoop (inputElements : FieldSet) (todo : list string)
  (data : obj JsVal) : M (obj JsVal) :=
  match todo with
  | [] => ret data
  | key :: rest =>
      c <- getField inputElements key ;;
      if missingRequired c then
        emit (EvAlert (key ++ " is required")) ;; early_return
      else
        match type c with
        | Some TyList =>
            installLoop inputElements rest (obj_assign key (listValue (value c)) data)
        | _ =>
            installLoop inputElements rest (obj_assign key (JPrim (value c)) data)
        end
  end.

(** [o[k1][k2] = v]: the object that [o[k1]] holds is changed in place.
    The handler uses it only after [o[k1] = {}]. *)
Definition obj_assign_in (k1 k2 : string) (v : JsVal) (o : obj JsVal) : obj JsVal :=
  match obj_get k1 o with
  | Some (JObject inner) => obj_replace k1 (JObject (obj_assign k2 v inner)) o
  | _ => o
  end.

(** The local variables of [handleSubmit]; [token] is [accessToken]. *)
Record Locals : Type := mkLocals {
  data : obj JsVal;
  apiEndpoint : string;
  token : option string
}.

Definition initLocals : Locals :=
  {| data := []; apiEndpoint := EmptyString; token := None |}.

Definition credentialsBranch (APIHOST : option string) (props : Props)
  (inputElements : FieldSet) : M Locals :=
  let apiEndpoint :=
    templateString APIHOST ++ "/v1/bot/" ++ templateString (botId props) ++ "/configure" in
  credentials <- credentialsLoop inputElements (keys inputElements) [] ;;
  ret {| data := obj_assign "credentials" (JObject credentials) [];
         apiEndpoint := apiEndpoint; token := None |}.

Definition activateBranch (APIHOST : option string) (props : Props)
  (inputElements : FieldSet) : M Locals :=
  let apiEndpoint :=
    templateString APIHOST ++ "/v1/bot/" ++ templateString (botId props) ++ "/activate" in
  phone <- getField inputElements "phone_number" ;;
  if missingRequired phone then
    emit (EvAlert "Phone number is required") ;; early_return
  else
    whatsapp <- getField inputElements "whatsapp" ;;
    if missingRequired whatsapp then
      emit (EvAlert "Whatsapp Key is required") ;; early_return
    else
      let data := obj_assign "phone_number" (JPrim (value phone)) [] in
      let data := obj_assign "channels" (JObject []) data in
      let data := obj_assign_in "channels" "whatsapp" (JPrim (value whatsapp)) data in
      ret {| data := data; apiEndpoint := apiEndpoint; token := None |}.

Definition installBranch (APIHOST : option string) (env : Env)
  (inputElements : FieldSet) : M Locals :=
  let apiEndpoint := templateString APIHOST ++ "/v1/bot/install" in
  emit EvFetchSecret ;;
  match fetchSecret env with
  | Rejected error =>
      emit (EvConsoleError "Failed to fetch the access token:" error) ;;
      emit (EvAlert "Failed to fetch the access token") ;;
      early_return
  | Fulfilled accessToken =>
      data <- installLoop inputElements (keys inputElements) [] ;;
      ret {| data := data; apiEndpoint := apiEndpoint; token := Some accessToken |}
  end.

Definition requestOf (l : Locals) : Request :=
  {| url := apiEndpoint l;
     method := "POST";
     accessToken := token l;
     body := JObject (data l);
     headers := [("Content-Type", "application/json")] |}.

Definition serverErrorMessage (error : JsError) : string :=
  "Error from server " ++ dquote ++ templateString (errorDetail error) ++ dquote
  ++ ". Please try again.".

(** The final [try] block: the request, then [onClose()], or the handler
    of the [catch] clause. *)
Definition send (env : Env) (l : Locals) : M unit :=
  emit (EvSendRequest (requestOf l)) ;;
  match sendRequest env (requestOf l) with
  | Fulfilled _ => emit EvOnClose
  | Rejected error =>
      emit (EvAlert (serverErrorMessage error)) ;;
      emit (EvConsoleError "Error saving settings:" error)
  end.

(** The branch on [modelType] that fills [data], [apiEndpoint] and
    [accessToken]. *)
Definition prepare (APIHOST : option string) (props : Props) (env : Env)
  (inputElements : FieldSet) : M Locals :=
  if String.eqb (modelType props) "credentials" then
    credentialsBranch APIHOST props inputElements
  else if String.eqb (modelType props) "activate" then
    activateBranch APIHOST props inputElements
  else if String.eqb (modelType props) "install" then
    installBranch APIHOST env inputElements
  else ret initLocals.

Definition handleSubmit (APIHOST : option string) (props : Props) (env : Env)
  (inputElements : FieldSet) : M unit :=
  l <- prepare APIHOST props env inputElements ;;
  send env l.

(* ------------------------------------------------------------------ *)
(** ** Vocabulary of the properties *)

(** Every required field has a value that does not trim to the empty
    string. *)
Definition requiredFilled (inputElements : FieldSet) : bool :=
  forallb (fun e => negb (missingRequired (snd e))) inputElements.

(** The first field, in enumeration order, that is required and blank. *)
Fixpoint firstMissing (inputElements : FieldSet) : option string :=
  match inputElements with
  | [] => None
  | (k, c) :: r => if missingRequired c then Some k else firstMissing r
  end.

(** The serialized value of a field in install mode, in the words of the
    specification: a field of type list becomes the ordered sequence of the
    trimmed segments between the commas of its string form; any other field
    keeps its value. *)
Definition specSerialized (c : InputConfig) : JsVal :=
  match type c with
  | Some TyList =>
      JArray (map (fun seg => JPrim (VString seg))
                  (map trim (split comma (toString (value c)))))
  | _ => JPrim (value c)
  end.

Definition isSendRequest (ev : Event) : bool :=
  match ev with
  | EvSendRequest _ => true
  | _ => false
  end.

Definition isOnClose (ev : Event) : bool :=
  match ev with
  | EvOnClose => true
  | _ => false
  end.

(** How many times the close callback was called. *)
Definition closeCount (t : list Event) : nat := length (filter isOnClose t).

(** The requests issued, in order. *)
Fixpoint requests (t : list Event) : list Request :=
  match t with
  | [] => []
  | EvSendRequest r :: t' => r :: requests t'
  | _ :: t' => requests t'
  end.

(** The messages shown by [alert], in order. *)
Fixpoint alerts (t : list Event) : list string :=
  match t with
  | [] => []
  | EvAlert msg :: t' => msg :: alerts t'
  | _ :: t' => alerts t'
  end.

End Model.

Arguments VString {number} s.
Arguments VBoolean {number} b.
Arguments EvAlert {number} msg.
Arguments EvConsoleError {number} label e.
Arguments EvFetchSecret {number}.
Arguments EvOnClose {number}.
Arguments ret {number A} a.
Arguments early_return {number A}.
Arguments throw {number A} e.
Arguments initLocals {number}.

(* ================================================================== *)
(** ** The dialog: seeding, rendering and editing *)

Section View.

Variable number : Type.
Variable Number_toString : number -> string.

(** [Number(text)], the platform's conversion of a text to a number. *)
Variable Number : string -> number.

(** The effect hook: the state is re-seeded with [inputs || {}]. *)
Definition initialize (inputs : option (FieldSet number)) : FieldSet number :=
  match inputs with
  | Some given => given
  | None => []
  end.

(** The editing element of a field: a [textarea] with its value,
    placeholder and rows, or an [input] with its type, value and
    placeholder. *)
Inductive Control : Type :=
| Textarea (shown : string) (hint : string) (rows : nat)
| Input (inputType : string) (shown : string) (hint : string).

(** One [input-wrapper]: its React key, its label and its element. *)
Record FieldRow : Type := mkFieldRow {
  rowKey : string;
  rowLabel : string;
  rowControl : Control
}.

(** [placeholder || '']. *)
Definition orEmpty (o : option string) : string :=
  match o with
  | Some s => s
  | None => EmptyString
  end.

(** The element chosen for a descriptor: a [textarea] of five rows for
    the type [text], else an [input] of the type that [getInputType]
    gives. *)
Definition renderControl (c : InputConfig number) : Control :=
  match type c with
  | Some TyText =>
      Textarea (toString Number_toString (value c)) (orEmpty (placeholder c)) 5
  | _ =>
      Input (getInputType c) (toString Number_toString (value c))
            (orEmpty (placeholder c))
  end.

(** [{key}{inputElements[key]?.required === true ? ' *' : ''}]. *)
Definition renderLabel (inputElements : FieldSet number) (key : string) : string :=
  match obj_get key inputElements with
  | Some c => match required c with
              | Some true => key ++ " *"
              | _ => key
              end
  | None => key
  end.

(** The callback of [Object.keys(inputElements).map]: [None] is the
    [TypeError] of reading [type] on [undefined]. *)
Definition renderField (inputElements : FieldSet number) (key : string)
  : option FieldRow :=
  match obj_get key inputElements with
  | Some c =>
      Some {| rowKey := key;
              rowLabel := renderLabel inputElements key;
              rowControl := renderControl c |}
  | None => None
  end.

Fixpoint renderFields (inputElements : FieldSet number) (todo : list string)
  : option (list FieldRow) :=
  match todo with
  | [] => Some []
  | key :: rest =>
      match renderField inputElements key with
      | Some row =>
          match renderFields inputElements rest with
          | Some rows => Some (row :: rows)
          | None => None
          end
      | None => None
      end
  end.

(** What the component shows: the heading and the rows of the body. *)
Record Dialog : Type := mkDialog {
  heading : string;
  fieldRows : list FieldRow
}.

(** [title ? title : 'Settings']: a missing or empty title gives the
    default heading. *)
Definition headingOf (title : option string) : string :=
  match title with
  | Some (String c r) => String c r
  | _ => "Settings"
  end.

(** The component's result: [inr None] for [null] (the dialog is closed),
    [inl] for a thrown error. *)
Definition render (title : option string) (isOpen : bool)
  (inputElements : FieldSet number) : JsError + option Dialog :=
  if negb isOpen then inr None
  else match renderFields inputElements (keys inputElements) with
       | Some rows => inr (Some {| heading := headingOf title; fieldRows := rows |})
       | None => inl TypeError
       end.

(** The [onChange] handlers: a [textarea] stores the text; an [input]
    stores [Number(text)] when its type is [number], else the text. *)
Definition changedValue (control : Control) (text : string) : Value number :=
  match control with
  | Textarea _ _ _ => VString text
  | Input inputType _ _ =>
      if String.eqb inputType "number" then VNumber (Number text)
      else VString text
  end.

Definition onChange (key : string) (control : Control) (text : string)
  (prevState : FieldSet number) : FieldSet number :=
  updateValue key (changedValue control text) prevState.

(** The value that an element shows. *)
Definition shownOf (control : Control) : string :=
  match control with
  | Textarea shown _ _ => shown
  | Input _ shown _ => shown
  end.

(** The element with another value shown. *)
Definition withShown (control : Control) (shown : string) : Control :=
  match control with
  | Textarea _ hint rows => Textarea shown hint rows
  | Input inputType _ hint => Input inputType shown hint
  end.

(** How many fields the required check rejects. *)
Definition missingCount (inputElements : FieldSet number) : nat :=
  length (filter (fun e => missingRequired Number_toString (snd e)) inputElements).

End View.

(** The number of commas of a string. *)
Fixpoint countCommas (s : string) : nat :=
  match s with
  | EmptyString => 0
  | String c r => (if Ascii.eqb c comma then 1 else 0) + countCommas r
  end.

(* ================================================================== *)
(** ** An instance: integral numbers

    A number that is an integer of magnitude at most [2^53] has its decimal
    numeral as string form, with a minus sign when negative; the instance
    stands for the numbers of that range. *)

Definition Integer_toString (z : Z) : string :=
  NilZero.string_of_int (Z.to_int z).

(** [Number] on the decimal numerals of integers and on the empty text,
    which it converts to [0]; the instance is used on such texts only. *)
Definition Integer_ofString (text : string) : Z :=
  match NilZero.int_of_string text with
  | Some d => Z.of_int d
  | None => 0%Z
  end.

Definition host : option string := Some "https://api.example".

Definition accepting : Env Z :=
  {| fetchSecret := Fulfilled "tok"; sendRequest := fun _ => Fulfilled tt |}.

Definition refusing : Env Z :=
  {| fetchSecret := Rejected (Rejection None);
     sendRequest := fun _ => Rejected (Rejection (Some "bad key")) |}.

(** A server that refuses the request with an error that has no detail. *)
Definition refusingSilently : Env Z :=
  {| fetchSecret := Fulfilled "tok";
     sendRequest := fun _ => Rejected (Rejection None) |}.

Definition textField (s : string) (req : bool) : InputConfig Z :=
  {| value := VString s; is_secret := None; type := Some TyString;
     placeholder := None; required := Some req |}.

Definition listField (s : string) (req : bool) : InputConfig Z :=
  {| value := VString s; is_secret := None; type := Some TyList;
     placeholder := None; required := Some req |}.

Definition flagField (b : bool) (req : bool) : InputConfig Z :=
  {| value := VBoolean b; is_secret := None; type := Some TyBoolean;
     placeholder := None; required := Some req |}.

Definition countField (z : Z) (req : bool) : InputConfig Z :=
  {| value := VNumber z; is_secret := None; type := Some TyNumber;
     placeholder := None; required := Some req |}.

Definition propsOf (mode : string) : Props :=
  {| botId := Some "bot7"; modelType := mode |}.

Definition jsonHeaders : list (string * string) :=
  [("Content-Type", "application/json")].

Unset Implicit Arguments.

(* ================================================================== *)
(** * Properties *)

(** ** Objects *)

Section ObjectFacts.

Context {A : Type}.

Lemma obj_get_map (B : Type) (f : A -> B) (k : string) (o : obj A) :
  obj_get k (obj_map f o) = option_map f (obj_get k o).
Proof.
  induction o as [|[k' v] o IH]; simpl; [reflexivity|].
  destruct (String.eqb k k'); [reflexivity | exact IH].
Qed.

Lemma obj_get_app_fresh (k : string) (o1 o2 : obj A) :
  obj_get k o1 = None -> obj_get k (o1 ++ o2)%list = obj_get k o2.
Proof.
  induction o1 as [|[k' v] o1 IH]; simpl; [reflexivity|].
  destruct (String.eqb k k'); [discriminate | exact IH].
Qed.

Lemma obj_get_In (k : string) (v : A) (o : obj A) :
  obj_get k o = Some v -> In (k, v) o.
Proof.
  induction o as [|[k' v'] o IH]; simpl; [discriminate|].
  destruct (String.eqb k k') eqn:E.
  - apply String.eqb_eq in E. intros [= ->]. left. now subst.
  - intros H. right. now apply IH.
Qed.

Lemma obj_add_last (k : string) (v : A) (o : obj A) :
  forallb (fun e => negb (keyBefore k (fst e))) o = true ->
  obj_add k v o = (o ++ [(k, v)])%list.
Proof.
  induction o as [|[k' v'] o IH]; simpl; [reflexivity|].
  intros H. apply andb_true_iff in H as [H1 H2].
  apply negb_true_iff in H1. rewrite H1, IH by assumption. reflexivity.
Qed.

Lemma obj_wf_app (o1 : obj A) (k : string) (v : A) (o2 : obj A) :
  obj_wf (o1 ++ (k, v) :: o2)%list = true ->
  obj_get k o1 = None /\
  forallb (fun e => negb (keyBefore k (fst e))) o1 = true.
Proof.
  induction o1 as [|[k' v'] o1 IH]; simpl; [tauto|].
  intros H. apply andb_true_iff in H as [H1 H2].
  rewrite forallb_app in H1. apply andb_true_iff in H1 as [_ H1].
  simpl in H1. apply andb_true_iff in H1 as [H1 _].
  apply andb_true_iff in H1 as [Hne Hord].
  apply negb_true_iff in Hne. rewrite Hne, Hord.
  destruct (IH H2) as [IH1 IH2]. now rewrite IH2.
Qed.

Lemma obj_replace_keys (k : string) (v : A) (o : obj A) :
  keys (obj_replace k v o) = keys o.
Proof.
  induction o as [|[k' v'] o IH]; simpl; [reflexivity|].
  destruct (String.eqb k k'); simpl; [reflexivity | now rewrite IH].
Qed.

Lemma obj_get_replace_same (k : string) (v w : A) (o : obj A) :
  obj_get k o = Some w -> obj_get k (obj_replace k v o) = Some v.
Proof.
  induction o as [|[k' v'] o IH]; simpl; [discriminate|].
  destruct (String.eqb k k') eqn:E; simpl; rewrite E; [reflexivity | exact IH].
Qed.

Lemma obj_get_replace_other (k k' : string) (v : A) (o : obj A) :
  k' <> k -> obj_get k' (obj_replace k v o) = obj_get k' o.
Proof.
  intros Hne. induction o as [|[k0 v0] o IH]; simpl; [reflexivity|].
  destruct (String.eqb k k0) eqn:E; simpl.
  - apply String.eqb_eq in E. subst k0.
    apply String.eqb_neq in Hne. now rewrite Hne.
  - now rewrite IH.
Qed.

End ObjectFacts.

Lemma forallb_obj_map (A B : Type) (f : A -> B) (p : string -> bool) (o : obj A) :
  forallb (fun e => p (fst e)) (obj_map f o) = forallb (fun e => p (fst e)) o.
Proof.
  induction o as [|[k v] o IH]; simpl; [reflexivity | now rewrite IH].
Qed.

Lemma obj_map_app (A B : Type) (f : A -> B) (o1 o2 : obj A) :
  obj_map f (o1 ++ o2)%list = (obj_map f o1 ++ obj_map f o2)%list.
Proof. apply map_app. Qed.

(** An assignment of a new, ordinary key that no earlier key must follow
    appends the property. *)
Lemma obj_assign_last (A : Type) (k : string) (v : A) (o : obj A) :
  String.eqb k "__proto__" = false ->
  obj_get k o = None ->
  forallb (fun e => negb (keyBefore k (fst e))) o = true ->
  obj_assign k v o = (o ++ [(k, v)])%list.
Proof.
  intros Hp Hg Ho. unfold obj_assign, obj_define, obj_has.
  rewrite Hp, Hg. now apply obj_add_last.
Qed.

(* ================================================================== *)
(** ** The recording monad and the two loops *)

Section HandlerFacts.

Variable number : Type.
Variable Number_toString : number -> string.

Local Notation "x <- m ;; k" := (bind m (fun x => k))
  (at level 61, m at next level, right associativity).

Lemma bind_ret (A B : Type) (a : A) (f : A -> M number B) :
  bind (ret a) f = f a.
Proof. unfold bind, ret. now destruct (f a). Qed.

Lemma bind_normal (A B : Type) (t : list (Event number)) (a : A)
  (f : A -> M number B) :
  bind (t, Normal a) f = ((t ++ fst (f a))%list, snd (f a)).
Proof. unfold bind. now destruct (f a). Qed.

Lemma listValue_spec (v : Value number) :
  listValue Number_toString v =
  JArray (map (fun seg => JPrim (VString seg))
              (map trim (split comma (toString Number_toString v)))).
Proof. unfold listValue. now rewrite map_map. Qed.

Lemma requiredFilled_get (fs : FieldSet number) (k : string) (c : InputConfig number) :
  requiredFilled Number_toString fs = true ->
  obj_get k fs = Some c ->
  missingRequired Number_toString c = false.
Proof.
  unfold requiredFilled. intros H G. apply obj_get_In in G.
  rewrite forallb_forall in H. apply H in G. simpl in G.
  now apply negb_true_iff.
Qed.

Lemma firstMissing_None (fs : FieldSet number) :
  firstMissing Number_toString fs = None <->
  requiredFilled Number_toString fs = true.
Proof.
  induction fs as [|[k c] fs IH]; simpl; [tauto|].
  destruct (missingRequired Number_toString c); simpl.
  - split; discriminate.
  - exact IH.
Qed.

(** The step both loops share once the entry under [k] has passed the
    required check: the assignment appends the property. *)
Ltac loop_step k Hwf Hpl :=
  let Hfresh := fresh "Hfresh" in
  let Hord := fresh "Hord" in
  let Hk := fresh "Hk" in
  destruct (obj_wf_app _ _ _ _ Hwf) as [Hfresh Hord];
  assert (Hk : String.eqb k "__proto__" = false)
    by (unfold plainKeys in Hpl; rewrite forallb_app in Hpl;
        apply andb_true_iff in Hpl as [_ Hpl]; cbn [forallb fst] in Hpl;
        apply andb_true_iff in Hpl as [Hpl _];
        apply negb_true_iff in Hpl; exact Hpl);
  rewrite obj_assign_last;
  [ | exact Hk
    | rewrite obj_get_map, Hfresh; reflexivity
    | rewrite (forallb_obj_map _ _ _ (fun k' => negb (keyBefore k k'))); exact Hord ].

Lemma getField_here (done todo : FieldSet number) (k : string) (c : InputConfig number) :
  obj_wf (done ++ (k, c) :: todo)%list = true ->
  getField (done ++ (k, c) :: todo)%list k = ret c.
Proof.
  intros Hwf. destruct (obj_wf_app _ _ _ _ Hwf) as [Hfresh _].
  unfold getField. rewrite obj_get_app_fresh by assumption.
  simpl. now rewrite String.eqb_refl.
Qed.

Lemma credentialsLoop_filled (todo done : FieldSet number) :
  obj_wf (done ++ todo)%list = true ->
  plainKeys (done ++ todo)%list = true ->
  requiredFilled Number_toString todo = true ->
  credentialsLoop Number_toString (done ++ todo)%list (keys todo)
    (obj_map (fun c => JPrim (value c)) done)
  = ret (obj_map (fun c => JPrim (value c)) (done ++ todo)%list).
Proof.
  revert done. induction todo as [|[k c] todo IH]; intros done Hwf Hpl Hfill.
  - simpl. now rewrite app_nil_r.
  - simpl in Hfill. apply andb_true_iff in Hfill as [Hc Hfill].
    apply negb_true_iff in Hc.
    simpl keys. simpl credentialsLoop.
    rewrite getField_here, bind_ret, Hc by assumption.
    loop_step k Hwf Hpl.
    change (done ++ (k, c) :: todo)%list with (done ++ [(k, c)] ++ todo)%list in *.
    rewrite app_assoc in *.
    specialize (IH (done ++ [(k, c)])%list Hwf Hpl Hfill).
    rewrite obj_map_app in IH at 1. exact IH.
Qed.

Lemma installLoop_filled (todo done : FieldSet number) :
  obj_wf (done ++ todo)%list = true ->
  plainKeys (done ++ todo)%list = true ->
  requiredFilled Number_toString todo = true ->
  installLoop Number_toString (done ++ todo)%list (keys todo)
    (obj_map (specSerialized Number_toString) done)
  = ret (obj_map (specSerialized Number_toString) (done ++ todo)%list).
Proof.
  revert done. induction todo as [|[k c] todo IH]; intros done Hwf Hpl Hfill.
  - simpl. now rewrite app_nil_r.
  - simpl in Hfill. apply andb_true_iff in Hfill as [Hc Hfill].
    apply negb_true_iff in Hc.
    simpl keys. simpl installLoop.
    rewrite getField_here, bind_ret, Hc by assumption.
    assert (Hstep :
      installLoop Number_toString (done ++ (k, c) :: todo)%list (keys todo)
        (obj_assign k (specSerialized Number_toString c)
           (obj_map (specSerialized Number_toString) done))
      = ret (obj_map (specSerialized Number_toString) (done ++ (k, c) :: todo)%list)).
    { loop_step k Hwf Hpl.
      change (done ++ (k, c) :: todo)%list with (done ++ [(k, c)] ++ todo)%list in *.
      rewrite app_assoc in *.
      specialize (IH (done ++ [(k, c)])%list Hwf Hpl Hfill).
      rewrite obj_map_app in IH at 1. exact IH. }
    unfold specSerialized at 1 in Hstep. rewrite <- listValue_spec in Hstep.
    destruct (type c) as [[| | | |]|]; exact Hstep.
Qed.

(** A loop that meets a required and blank field alerts for the first one
    and returns. *)
Lemma credentialsLoop_missing (todo done : FieldSet number) (k : string)
  (acc : obj (JsVal number)) :
  obj_wf (done ++ todo)%list = true ->
  firstMissing Number_toString todo = Some k ->
  credentialsLoop Number_toString (done ++ todo)%list (keys todo) acc
  = ([EvAlert (k ++ " is required")], Return).
Proof.
  revert done acc. induction todo as [|[k0 c0] todo IH]; intros done acc Hwf Hm.
  - discriminate.
  - simpl in Hm. simpl keys. simpl credentialsLoop.
    rewrite getField_here, bind_ret by assumption.
    destruct (missingRequired Number_toString c0).
    + injection Hm as ->. reflexivity.
    + change (done ++ (k0, c0) :: todo)%list with (done ++ [(k0, c0)] ++ todo)%list in *.
      rewrite app_assoc in *. now apply IH.
Qed.

Lemma installLoop_missing (todo done : FieldSet number) (k : string)
  (acc : obj (JsVal number)) :
  obj_wf (done ++ todo)%list = true ->
  firstMissing Number_toString todo = Some k ->
  installLoop Number_toString (done ++ todo)%list (keys todo) acc
  = ([EvAlert (k ++ " is required")], Return).
Proof.
  revert done acc. induction todo as [|[k0 c0] todo IH]; intros done acc Hwf Hm.
  - discriminate.
  - simpl in Hm. simpl keys. simpl installLoop.
    rewrite getField_here, bind_ret by assumption.
    destruct (missingRequired Number_toString c0).
    + injection Hm as ->. reflexivity.
    + change (done ++ (k0, c0) :: todo)%list with (done ++ [(k0, c0)] ++ todo)%list in *.
      rewrite app_assoc in *.
      destruct (type c0) as [[| | | |]|]; now apply IH.
Qed.

(** What a loop can do: finish, alert once and return, or throw. *)
Definition loopShape (m : M number (obj (JsVal number))) : Prop :=
  (exists a, m = ret a)
  \/ (exists k, m = ([EvAlert (k ++ " is required")], Return))
  \/ m = throw TypeError.

Lemma credentialsLoop_shape (fs : FieldSet number) (todo : list string)
  (acc : obj (JsVal number)) :
  loopShape (credentialsLoop Number_toString fs todo acc).
Proof.
  revert acc. induction todo as [|k todo IH]; intros acc; simpl.
  - left. now exists acc.
  - unfold getField. destruct (obj_get k fs) as [c|].
    + rewrite bind_ret. destruct (missingRequired Number_toString c).
      * right. left. now exists k.
      * apply IH.
    + right. right. reflexivity.
Qed.

Lemma installLoop_shape (fs : FieldSet number) (todo : list string)
  (acc : obj (JsVal number)) :
  loopShape (installLoop Number_toString fs todo acc).
Proof.
  revert acc. induction todo as [|k todo IH]; intros acc; simpl.
  - left. now exists acc.
  - unfold getField. destruct (obj_get k fs) as [c|].
    + rewrite bind_ret. destruct (missingRequired Number_toString c).
      * right. left. now exists k.
      * destruct (type c) as [[| | | |]|]; apply IH.
    + right. right. reflexivity.
Qed.

(* ------------------------------------------------------------------ *)
(** ** Traces *)

Lemma requests_app (t1 t2 : list (Event number)) :
  requests (t1 ++ t2)%list = (requests t1 ++ requests t2)%list.
Proof.
  induction t1 as [|ev t1 IH]; [reflexivity|].
  destruct ev; simpl; rewrite ?IH; reflexivity.
Qed.

Lemma closeCount_app (t1 t2 : list (Event number)) :
  closeCount (t1 ++ t2)%list = closeCount t1 + closeCount t2.
Proof. unfold closeCount. now rewrite filter_app, length_app. Qed.

Lemma requests_In (r : Request number) (t : list (Event number)) :
  In (EvSendRequest r) t <-> In r (requests t).
Proof.
  induction t as [|ev t IH]; simpl; [tauto|].
  destruct ev; simpl; rewrite <- IH;
    (split; [intros [H|H]; [try discriminate | tauto] | try tauto]).
  - left. congruence.
  - intros [H|H]; [left; congruence | tauto].
Qed.

(** The final [try] block, by the way the request settles. *)
Lemma send_trace (env : Env number) (l : Locals number) :
  send env l =
  match sendRequest env (requestOf l) with
  | Fulfilled _ => ([EvSendRequest (requestOf l); EvOnClose], Normal tt)
  | Rejected error =>
      ([EvSendRequest (requestOf l); EvAlert (serverErrorMessage error);
        EvConsoleError "Error saving settings:" error], Normal tt)
  end.
Proof. unfold send. now destruct (sendRequest env (requestOf l)). Qed.

Lemma send_requests (env : Env number) (l : Locals number) :
  requests (fst (send env l)) = [requestOf l].
Proof. rewrite send_trace. now destruct (sendRequest env (requestOf l)). Qed.

(** Once the branch on the mode has completed normally, the handler is the
    final [try] block after what the branch recorded. *)
Lemma handleSubmit_prepared (APIHOST : option string) (props : Props)
  (env : Env number) (fs : FieldSet number) (pre : list (Event number))
  (l : Locals number) :
  prepare Number_toString APIHOST props env fs = (pre, Normal l) ->
  handleSubmit Number_toString APIHOST props env fs
  = ((pre ++ fst (send env l))%list, snd (send env l)).
Proof. intros H. unfold handleSubmit. rewrite H. apply bind_normal. Qed.

Lemma handleSubmit_aborted (APIHOST : option string) (props : Props)
  (env : Env number) (fs : FieldSet number) (pre : list (Event number)) :
  prepare Number_toString APIHOST props env fs = (pre, Return) ->
  handleSubmit Number_toString APIHOST props env fs = (pre, Return).
Proof. intros H. unfold handleSubmit. now rewrite H. Qed.

Lemma handleSubmit_split (APIHOST : option string) (props : Props)
  (env : Env number) (fs : FieldSet number) :
  (exists pre l,
      prepare Number_toString APIHOST props env fs = (pre, Normal l) /\
      handleSubmit Number_toString APIHOST props env fs
      = ((pre ++ fst (send env l))%list, snd (send env l)))
  \/ ((forall l, snd (prepare Number_toString APIHOST props env fs) <> Normal l) /\
      fst (handleSubmit Number_toString APIHOST props env fs)
      = fst (prepare Number_toString APIHOST props env fs) /\
      (forall u, snd (handleSubmit Number_toString APIHOST props env fs) <> Normal u)).
Proof.
  destruct (prepare Number_toString APIHOST props env fs) as [pre [l| |e]] eqn:E.
  - left. exists pre, l. split; [reflexivity|]. now apply handleSubmit_prepared.
  - right. unfold handleSubmit. rewrite E. simpl.
    repeat split; intros; discriminate.
  - right. unfold handleSubmit. rewrite E. simpl.
    repeat split; intros; discriminate.
Qed.

(* ------------------------------------------------------------------ *)
(** ** The branch on the mode *)

Lemma prepare_credentials (APIHOST : option string) (props : Props)
  (env : Env number) (fs : FieldSet number) :
  modelType props = "credentials" ->
  prepare Number_toString APIHOST props env fs
  = credentialsBranch Number_toString APIHOST props fs.
Proof. intros H. unfold prepare. now rewrite H. Qed.

Lemma prepare_activate (APIHOST : option string) (props : Props)
  (env : Env number) (fs : FieldSet number) :
  modelType props = "activate" ->
  prepare Number_toString APIHOST props env fs
  = activateBranch Number_toString APIHOST props fs.
Proof. intros H. unfold prepare. now rewrite H. Qed.

Lemma prepare_install (APIHOST : option string) (props : Props)
  (env : Env number) (fs : FieldSet number) :
  modelType props = "install" ->
  prepare Number_toString APIHOST props env fs
  = installBranch Number_toString APIHOST env fs.
Proof. intros H. unfold prepare. now rewrite H. Qed.

Lemma prepare_other (APIHOST : option string) (props : Props)
  (env : Env number) (fs : FieldSet number) :
  modelType props <> "credentials" ->
  modelType props <> "activate" ->
  modelType props <> "install" ->
  prepare Number_toString APIHOST props env fs = ret initLocals.
Proof.
  intros H1 H2 H3. unfold prepare.
  apply String.eqb_neq in H1, H2, H3. now rewrite H1, H2, H3.
Qed.

Lemma credentialsBranch_filled (APIHOST : option string) (props : Props)
  (fs : FieldSet number) :
  obj_wf fs = true -> plainKeys fs = true ->
  requiredFilled Number_toString fs = true ->
  credentialsBranch Number_toString APIHOST props fs
  = ret {| data := [("credentials",
                     JObject (obj_map (fun c => JPrim (value c)) fs))];
           apiEndpoint := templateString APIHOST ++ "/v1/bot/"
                          ++ templateString (botId props) ++ "/configure";
           token := None |}.
Proof.
  intros Hwf Hpl Hfill. unfold credentialsBranch.
  pose proof (credentialsLoop_filled fs [] Hwf Hpl Hfill) as H.
  cbn [app obj_map map] in H. rewrite H, bind_ret. reflexivity.
Qed.

Lemma installBranch_filled (APIHOST : option string) (env : Env number)
  (fs : FieldSet number) (tok : string) :
  fetchSecret env = Fulfilled tok ->
  obj_wf fs = true -> plainKeys fs = true ->
  requiredFilled Number_toString fs = true ->
  installBranch Number_toString APIHOST env fs
  = ([EvFetchSecret],
     Normal {| data := obj_map (specSerialized Number_toString) fs;
               apiEndpoint := templateString APIHOST ++ "/v1/bot/install";
               token := Some tok |}).
Proof.
  intros Hf Hwf Hpl Hfill. unfold installBranch. rewrite Hf.
  pose proof (installLoop_filled fs [] Hwf Hpl Hfill) as H.
  cbn [app obj_map map] in H. rewrite H, bind_ret. reflexivity.
Qed.

Lemma activateBranch_filled (APIHOST : option string) (props : Props)
  (fs : FieldSet number) (p w : InputConfig number) :
  obj_get "phone_number" fs = Some p ->
  obj_get "whatsapp" fs = Some w ->
  missingRequired Number_toString p = false ->
  missingRequired Number_toString w = false ->
  activateBranch Number_toString APIHOST props fs
  = ret {| data := [("phone_number", JPrim (value p));
                    ("channels", JObject [("whatsapp", JPrim (value w))])];
           apiEndpoint := templateString APIHOST ++ "/v1/bot/"
                          ++ templateString (botId props) ++ "/activate";
           token := None |}.
Proof.
  intros Hp Hw Mp Mw. unfold activateBranch, getField.
  rewrite Hp, bind_ret, Mp, Hw, bind_ret, Mw. reflexivity.
Qed.

(** The branch on the mode issues no request and never calls the close
    callback. *)
Lemma prepare_quiet (APIHOST : option string) (props : Props)
  (env : Env number) (fs : FieldSet number) :
  requests (fst (prepare Number_toString APIHOST props env fs)) = [] /\
  closeCount (fst (prepare Number_toString APIHOST props env fs)) = 0.
Proof.
  unfold prepare.
  destruct (String.eqb (modelType props) "credentials");
    [|destruct (String.eqb (modelType props) "activate");
      [|destruct (String.eqb (modelType props) "install")]].
  - unfold credentialsBranch.
    destruct (credentialsLoop_shape fs (keys fs) []) as [[a ->]|[[k ->]| ->]];
      now split.
  - unfold activateBranch, getField.
    destruct (obj_get "phone_number" fs) as [p|]; [|now split].
    rewrite bind_ret. destruct (missingRequired Number_toString p); [now split|].
    destruct (obj_get "whatsapp" fs) as [w|]; [|now split].
    rewrite bind_ret. destruct (missingRequired Number_toString w); now split.
  - unfold installBranch. destruct (fetchSecret env) as [tok|e]; [|now split].
    destruct (installLoop_shape fs (keys fs) []) as [[a ->]|[[k ->]| ->]];
      now split.
  - now split.
Qed.

(** The access token that the branch on the mode leaves behind. *)
Lemma prepare_token (APIHOST : option string) (props : Props)
  (env : Env number) (fs : FieldSet number) (l : Locals number) :
  snd (prepare Number_toString APIHOST props env fs) = Normal l ->
  (modelType props <> "install" /\ token l = None)
  \/ (modelType props = "install" /\
      exists tok, fetchSecret env = Fulfilled tok /\ token l = Some tok).
Proof.
  unfold prepare.
  destruct (String.eqb (modelType props) "credentials") eqn:E1;
    [|destruct (String.eqb (modelType props) "activate") eqn:E2;
      [|destruct (String.eqb (modelType props) "install") eqn:E3]].
  - apply String.eqb_eq in E1. unfold credentialsBranch.
    destruct (credentialsLoop_shape fs (keys fs) []) as [[a ->]|[[k ->]| ->]];
      simpl; intros [= <-].
    left. split; [rewrite E1; discriminate | reflexivity].
  - apply String.eqb_eq in E2. unfold activateBranch, getField.
    destruct (obj_get "phone_number" fs) as [p|]; [|discriminate].
    rewrite bind_ret. destruct (missingRequired Number_toString p); [discriminate|].
    destruct (obj_get "whatsapp" fs) as [w|]; [|discriminate].
    rewrite bind_ret. destruct (missingRequired Number_toString w); [discriminate|].
    simpl. intros [= <-].
    left. split; [rewrite E2; discriminate | reflexivity].
  - apply String.eqb_eq in E3. unfold installBranch.
    destruct (fetchSecret env) as [tok|e]; [|discriminate].
    destruct (installLoop_shape fs (keys fs) []) as [[a ->]|[[k ->]| ->]];
      simpl; intros [= <-].
    right. split; [exact E3|]. now exists tok.
  - apply String.eqb_neq in E3. simpl. intros [= <-]. left. now split.
Qed.

Lemma send_head (env : Env number) (l : Locals number) :
  exists post, fst (send env l) = EvSendRequest (requestOf l) :: post.
Proof.
  rewrite send_trace. destruct (sendRequest env (requestOf l)); eexists; reflexivity.
Qed.

(** A run in which the branch on the mode does not complete normally issues
    no request and leaves the dialog alone. *)
Lemma handleSubmit_no_request (APIHOST : option string) (props : Props)
  (env : Env number) (fs : FieldSet number) :
  (forall l, snd (prepare Number_toString APIHOST props env fs) <> Normal l) ->
  requests (fst (handleSubmit Number_toString APIHOST props env fs)) = [] /\
  closeCount (fst (handleSubmit Number_toString APIHOST props env fs)) = 0.
Proof.
  intros Hab.
  destruct (handleSubmit_split APIHOST props env fs) as [(pre & l & E & _)|(_ & E & _)].
  - exfalso. apply (Hab l). now rewrite E.
  - rewrite E. apply prepare_quiet.
Qed.

(** Every request of a run is the one of the final [try] block. *)
Lemma handleSubmit_request (APIHOST : option string) (props : Props)
  (env : Env number) (fs : FieldSet number) (r : Request number) :
  In (EvSendRequest r) (fst (handleSubmit Number_toString APIHOST props env fs)) ->
  exists pre l,
    prepare Number_toString APIHOST props env fs = (pre, Normal l) /\
    r = requestOf l /\
    requests pre = [] /\ closeCount pre = 0 /\
    handleSubmit Number_toString APIHOST props env fs
    = ((pre ++ fst (send env l))%list, snd (send env l)).
Proof.
  intros Hin. apply requests_In in Hin.
  destruct (handleSubmit_split APIHOST props env fs) as [(pre & l & E & Hrun)|(Hab & _)].
  - pose proof (prepare_quiet APIHOST props env fs) as [Hq Hc].
    rewrite E in Hq, Hc. simpl in Hq, Hc.
    exists pre, l. repeat split; try assumption.
    rewrite Hrun in Hin. simpl in Hin.
    rewrite requests_app, Hq, send_requests in Hin.
    destruct Hin as [H|[]]. now symmetry.
  - destruct (handleSubmit_no_request APIHOST props env fs Hab) as [Hq _].
    rewrite Hq in Hin. destruct Hin.
Qed.

Lemma obj_wf_get (A : Type) (o : obj A) (k : string) (v : A) :
  obj_wf o = true -> In (k, v) o -> obj_get k o = Some v.
Proof.
  induction o as [|[k' v'] o IH]; simpl; [tauto|].
  intros Hwf [H|H].
  - injection H as -> ->. now rewrite String.eqb_refl.
  - apply andb_true_iff in Hwf as [Hall Hwf].
    rewrite forallb_forall in Hall. specialize (Hall _ H). simpl in Hall.
    apply andb_true_iff in Hall as [Hne _]. apply negb_true_iff in Hne.
    rewrite Hne. now apply IH.
Qed.

Lemma firstMissing_exists (fs : FieldSet number) (k0 : string)
  (c0 : InputConfig number) :
  In (k0, c0) fs -> missingRequired Number_toString c0 = true ->
  exists k c, firstMissing Number_toString fs = Some k /\
              In (k, c) fs /\ missingRequired Number_toString c = true.
Proof.
  induction fs as [|[k' c'] fs IH]; simpl; [tauto|].
  intros Hin Hm. destruct (missingRequired Number_toString c') eqn:E.
  - exists k', c'. repeat split; auto.
  - destruct Hin as [H|H]; [injection H as -> ->; congruence|].
    destruct (IH H Hm) as (k & c & F & I & M). exists k, c. auto.
Qed.

(* ================================================================== *)
(** * The properties of the specification *)


(** C4: in activate mode, when the fields [phone_number] and [whatsapp]
    pass their required checks, the one request issued has as body the
    object with the value of [phone_number] under [phone_number] and the
    value of [whatsapp] under [channels.whatsapp], and nothing else. *)
Theorem activate_body (APIHOST : option string) (props : Props)
  (env : Env number) (fs : FieldSet number) (p w : InputConfig number) :
  modelType props = "activate" ->
  obj_get "phone_number" fs = Some p ->
  obj_get "whatsapp" fs = Some w ->
  missingRequired Number_toString p = false ->
  missingRequired Number_toString w = false ->
  requests (fst (handleSubmit Number_toString APIHOST props env fs))
  = [ {| url := templateString APIHOST ++ "/v1/bot/"
                ++ templateString (botId props) ++ "/activate";
         method := "POST";
         accessToken := None;
         body := JObject [("phone_number", JPrim (value p));
                          ("channels", JObject [("whatsapp", JPrim (value w))])];
         headers := [("Content-Type", "application/json")] |} ].
Proof.
  intros Hm Hp Hw Mp Mw.
  rewrite (handleSubmit_prepared APIHOST props env fs []%list
             ({| data := [("phone_number", JPrim (value p));
                               ("channels", JObject [("whatsapp", JPrim (value w))])];
                      apiEndpoint := templateString APIHOST ++ "/v1/bot/"
                                     ++ templateString (botId props) ++ "/activate";
                      token := None |})).
  - simpl fst. now rewrite send_requests.
  - rewrite prepare_activate by assumption.
    now apply activateBranch_filled.
Qed.


(** C1 (as amended): for every Field Set that has no field named
    [__proto__] and in which every required field has a value that does
    not trim to the empty string: in credentials mode the first call the
    handler records is the request, with no alert before it, and the body
    holds, under [credentials], the value of every field of the Field Set;
    in install mode, when the secret is fetched, the fetch is followed at
    once by the request, whose body holds the serialized value of every
    field; in activate mode, when the Field Set has the fields
    [phone_number] and [whatsapp], the first call recorded is the request
    and its body holds the values of these two fields and of no other. *)
Theorem filled_fields_reach_the_request (APIHOST : option string) (props : Props)
  (env : Env number) (fs : FieldSet number) :
  obj_wf fs = true -> plainKeys fs = true ->
  requiredFilled Number_toString fs = true ->
  (modelType props = "credentials" ->
   exists r creds post,
     fst (handleSubmit Number_toString APIHOST props env fs) = EvSendRequest r :: post /\
     body r = JObject [("credentials", JObject creds)] /\
     forall k c, obj_get k fs = Some c -> obj_get k creds = Some (JPrim (value c)))
  /\ (modelType props = "install" ->
      forall tok, fetchSecret env = Fulfilled tok ->
      exists r data post,
        fst (handleSubmit Number_toString APIHOST props env fs)
        = EvFetchSecret :: EvSendRequest r :: post /\
        body r = JObject data /\
        forall k c, obj_get k fs = Some c ->
                    obj_get k data = Some (specSerialized Number_toString c))
  /\ (modelType props = "activate" ->
      forall p w, obj_get "phone_number" fs = Some p ->
                  obj_get "whatsapp" fs = Some w ->
      exists r post,
        fst (handleSubmit Number_toString APIHOST props env fs) = EvSendRequest r :: post /\
        body r = JObject [("phone_number", JPrim (value p));
                          ("channels", JObject [("whatsapp", JPrim (value w))])]).
Proof.
  intros Hwf Hpl Hfill. split; [|split].
  - intros Hm.
    pose proof (credentialsBranch_filled APIHOST props fs Hwf Hpl Hfill) as Hb.
    rewrite <- (prepare_credentials APIHOST props env fs Hm) in Hb.
    rewrite (handleSubmit_prepared _ _ _ _ _ _ Hb).
    destruct (send_head env {| data := [("credentials",
                     JObject (obj_map (fun c => JPrim (value c)) fs))];
           apiEndpoint := templateString APIHOST ++ "/v1/bot/"
                          ++ templateString (botId props) ++ "/configure";
           token := None |}) as [post Hpost].
    rewrite Hpost.
    eexists _, (obj_map (fun c => JPrim (value c)) fs), post.
    split; [reflexivity|]. split; [reflexivity|].
    intros k c Hg. now rewrite obj_get_map, Hg.
  - intros Hm tok Hf.
    pose proof (installBranch_filled APIHOST env fs tok Hf Hwf Hpl Hfill) as Hb.
    rewrite <- (prepare_install APIHOST props env fs Hm) in Hb.
    rewrite (handleSubmit_prepared _ _ _ _ _ _ Hb).
    destruct (send_head env {| data := obj_map (specSerialized Number_toString) fs;
               apiEndpoint := templateString APIHOST ++ "/v1/bot/install";
               token := Some tok |}) as [post Hpost].
    rewrite Hpost.
    eexists _, (obj_map (specSerialized Number_toString) fs), post.
    split; [reflexivity|]. split; [reflexivity|].
    intros k c Hg. now rewrite obj_get_map, Hg.
  - intros Hm p w Hp Hw.
    pose proof (activateBranch_filled APIHOST props fs p w Hp Hw
                  (requiredFilled_get fs _ p Hfill Hp) (requiredFilled_get fs _ w Hfill Hw)) as Hb.
    rewrite <- (prepare_activate APIHOST props env fs Hm) in Hb.
    rewrite (handleSubmit_prepared _ _ _ _ _ _ Hb).
    destruct (send_head env {| data := [("phone_number", JPrim (value p));
                    ("channels", JObject [("whatsapp", JPrim (value w))])];
           apiEndpoint := templateString APIHOST ++ "/v1/bot/"
                          ++ templateString (botId props) ++ "/activate";
           token := None |}) as [post Hpost].
    rewrite Hpost. eexists _, post. split; reflexivity.
Qed.

Lemma firstMissing_split (fs : FieldSet number) (k : string) :
  firstMissing Number_toString fs = Some k ->
  exists before c after,
    fs = (before ++ (k, c) :: after)%list /\
    requiredFilled Number_toString before = true /\
    missingRequired Number_toString c = true.
Proof.
  induction fs as [|[k' c'] fs IH]; simpl; [discriminate|].
  destruct (missingRequired Number_toString c') eqn:E.
  - intros [= ->]. now exists [], c', fs.
  - intros H. destruct (IH H) as (before & c & after & -> & Hb & Hc).
    exists ((k', c') :: before), c, after. simpl. rewrite E. auto.
Qed.

(** C2 (as amended): for every Field Set that has a required field whose
    value trims to the empty string: in credentials mode the handler
    alerts that the first such field in enumeration order is required and
    returns, with no request issued; in install mode no request is issued
    either, and when the secret is fetched the run is the fetch, that same
    alert and the return. In activate mode only [phone_number] and
    [whatsapp] are checked: when [phone_number] is such a field the
    handler alerts that the phone number is required and returns; when
    [whatsapp] is such a field and [phone_number] is present, it alerts
    that the phone number is required if [phone_number] is required and
    blank too, and that the Whatsapp key is required otherwise, and
    returns; when [whatsapp] is such a field and [phone_number] is missing,
    it throws a [TypeError] with nothing alerted and nothing requested. *)
Theorem blank_required_field_aborts (APIHOST : option string) (props : Props)
  (env : Env number) (fs : FieldSet number) (k0 : string) (c0 : InputConfig number) :
  obj_wf fs = true ->
  In (k0, c0) fs -> missingRequired Number_toString c0 = true ->
  (exists before k c after,
     fs = (before ++ (k, c) :: after)%list /\
     requiredFilled Number_toString before = true /\
     missingRequired Number_toString c = true /\
     (modelType props = "credentials" ->
      handleSubmit Number_toString APIHOST props env fs
      = ([EvAlert (k ++ " is required")], Return)) /\
     (modelType props = "install" ->
      forall tok, fetchSecret env = Fulfilled tok ->
      handleSubmit Number_toString APIHOST props env fs
      = ([EvFetchSecret; EvAlert (k ++ " is required")], Return)))
  /\ (modelType props = "install" ->
      requests (fst (handleSubmit Number_toString APIHOST props env fs)) = [])
  /\ (modelType props = "activate" ->
      (k0 = "phone_number" ->
       handleSubmit Number_toString APIHOST props env fs
       = ([EvAlert "Phone number is required"], Return))
      /\ (k0 = "whatsapp" ->
          (forall p, obj_get "phone_number" fs = Some p ->
           handleSubmit Number_toString APIHOST props env fs
           = ([EvAlert (if missingRequired Number_toString p
                        then "Phone number is required"
                        else "Whatsapp Key is required")], Return))
          /\ (obj_get "phone_number" fs = None ->
              handleSubmit Number_toString APIHOST props env fs
              = ([], Throw TypeError)))).
Proof.
  intros Hwf Hin Hmiss.
  destruct (firstMissing_exists fs k0 c0 Hin Hmiss) as (k & c1 & Hfirst & _ & _).
  destruct (firstMissing_split fs k Hfirst) as (before & c & after & Hfs & Hb & Hc).
  split; [|split].
  - exists before, k, c, after. repeat split; try assumption.
    + intros Hm. apply handleSubmit_aborted. rewrite prepare_credentials by assumption.
      unfold credentialsBranch.
      now rewrite (credentialsLoop_missing fs [] k [] Hwf Hfirst : credentialsLoop Number_toString fs (keys fs) [] = _).
    + intros Hm tok Hf. apply handleSubmit_aborted.
      rewrite prepare_install by assumption. unfold installBranch. rewrite Hf.
      now rewrite (installLoop_missing fs [] k [] Hwf Hfirst : installLoop Number_toString fs (keys fs) [] = _).
  - intros Hm. apply handleSubmit_no_request. rewrite prepare_install by assumption.
    unfold installBranch. destruct (fetchSecret env) as [tok|e]; [|discriminate].
    rewrite (installLoop_missing fs [] k [] Hwf Hfirst : installLoop Number_toString fs (keys fs) [] = _). discriminate.
  - intros Hm. split.
    + intros ->. apply handleSubmit_aborted.
      rewrite prepare_activate by assumption. unfold activateBranch, getField.
      rewrite (obj_wf_get _ fs _ _ Hwf Hin), bind_ret, Hmiss. reflexivity.
    + intros ->. split.
      * intros p Hp. apply handleSubmit_aborted.
        rewrite prepare_activate by assumption. unfold activateBranch, getField.
        rewrite Hp, bind_ret.
        destruct (missingRequired Number_toString p); [reflexivity|].
        rewrite (obj_wf_get _ fs _ _ Hwf Hin), bind_ret, Hmiss. reflexivity.
      * intros Hp. unfold handleSubmit.
        rewrite prepare_activate by assumption. unfold activateBranch, getField.
        now rewrite Hp.
Qed.

(** C6: in install mode the first thing the handler does is to call the
    secret fetch; when the fetch fails it logs the error, alerts the
    generic message and returns, with no required check made and no request
    issued; and a request that is issued carries the token of a fetch that
    succeeded. *)
Theorem install_fetches_secret_first (APIHOST : option string) (props : Props)
  (env : Env number) (fs : FieldSet number) :
  modelType props = "install" ->
  (exists rest,
     fst (handleSubmit Number_toString APIHOST props env fs) = EvFetchSecret :: rest)
  /\ (forall e, fetchSecret env = Rejected e ->
      handleSubmit Number_toString APIHOST props env fs
      = ([EvFetchSecret;
          EvConsoleError "Failed to fetch the access token:" e;
          EvAlert "Failed to fetch the access token"], Return))
  /\ (forall r,
      In (EvSendRequest r) (fst (handleSubmit Number_toString APIHOST props env fs)) ->
      exists tok, fetchSecret env = Fulfilled tok /\ accessToken r = Some tok).
Proof.
  intros Hm. split; [|split].
  - assert (Hhead : exists rest,
      fst (prepare Number_toString APIHOST props env fs) = EvFetchSecret :: rest).
    { rewrite prepare_install by assumption. unfold installBranch.
      destruct (fetchSecret env) as [tok|e]; [|eexists; reflexivity].
      destruct (installLoop_shape fs (keys fs) []) as [[a ->]|[[k ->]| ->]];
        eexists; reflexivity. }
    destruct Hhead as [rest Hrest].
    destruct (handleSubmit_split APIHOST props env fs) as [(pre & l & E & Hrun)|(_ & E & _)].
    + rewrite E in Hrest. simpl in Hrest. subst pre.
      rewrite Hrun. eexists. reflexivity.
    + rewrite E, Hrest. eexists. reflexivity.
  - intros e Hf. apply handleSubmit_aborted.
    rewrite prepare_install by assumption. unfold installBranch.
    now rewrite Hf.
  - intros r Hin.
    destruct (handleSubmit_request APIHOST props env fs r Hin)
      as (pre & l & E & -> & _).
    destruct (prepare_token APIHOST props env fs l) as [[Hne _]|[_ Htok]].
    + now rewrite E.
    + contradiction.
    + exact Htok.
Qed.

(** C7 (as amended): for every run that reaches the request: when the
    request succeeds the close callback is called exactly once; when it
    fails the close callback is not called, the handler ends normally with
    the dialog left as it is, and the alert shows the words
    [Error from server], the detail between double quotes (the character
    of code 34) and the words [Please try again.]: the detail is the text
    of [error.body.detail], or the word [undefined] when the error carries
    none. *)
Theorem close_callback_follows_the_post (APIHOST : option string) (props : Props)
  (env : Env number) (fs : FieldSet number) (r : Request number) :
  In (EvSendRequest r) (fst (handleSubmit Number_toString APIHOST props env fs)) ->
  (forall u, sendRequest env r = Fulfilled u ->
     closeCount (fst (handleSubmit Number_toString APIHOST props env fs)) = 1)
  /\ (forall e, sendRequest env r = Rejected e ->
      closeCount (fst (handleSubmit Number_toString APIHOST props env fs)) = 0 /\
      In (EvAlert ("Error from server " ++ String (ascii_of_nat 34) EmptyString
                   ++ match e with
                      | Rejection (Some detail) => detail
                      | _ => "undefined"
                      end
                   ++ String (ascii_of_nat 34) EmptyString
                   ++ ". Please try again."))
         (fst (handleSubmit Number_toString APIHOST props env fs)) /\
      snd (handleSubmit Number_toString APIHOST props env fs) = Normal tt).
Proof.
  intros Hin.
  destruct (handleSubmit_request APIHOST props env fs r Hin)
    as (pre & l & _ & -> & _ & Hc & Hrun).
  rewrite Hrun, send_trace. split.
  - intros u Hu. rewrite Hu. simpl fst.
    rewrite closeCount_app, Hc. reflexivity.
  - intros e He. rewrite He. simpl fst. simpl snd.
    rewrite closeCount_app, Hc. repeat split.
    apply in_or_app. right. right. left.
    destruct e as [|[detail|]]; reflexivity.
Qed.

(** C8: for every Field Set, every key it has and every new value,
    [updateValue] keeps the keys and their order, gives the named field the
    new value and leaves its other properties as they were, and leaves the
    descriptor of every other key as it was. *)
Theorem updateValue_frame (key : string) (newValue : Value number)
  (fs : FieldSet number) (c : InputConfig number) :
  obj_get key fs = Some c ->
  keys (updateValue key newValue fs) = keys fs
  /\ obj_get key (updateValue key newValue fs)
     = Some {| value := newValue; is_secret := is_secret c; type := type c;
               placeholder := placeholder c; required := required c |}
  /\ (forall k', k' <> key ->
        obj_get k' (updateValue key newValue fs) = obj_get k' fs).
Proof.
  intros Hg. unfold updateValue, obj_define, obj_has. rewrite Hg. simpl withValue.
  split; [apply obj_replace_keys|]. split.
  - now apply obj_get_replace_same with (w := c).
  - intros k' Hne. now apply obj_get_replace_other.
Qed.

(** The required check, spelled out. *)
Lemma missingRequired_iff (c : InputConfig number) :
  missingRequired Number_toString c = true <->
  required c = Some true /\
  trim (toString Number_toString (value c)) = EmptyString.
Proof.
  unfold missingRequired. destruct (required c) as [[|]|].
  - destruct (trim (toString Number_toString (value c))); simpl.
    + tauto.
    + split; [discriminate | intros [_ H]; discriminate].
  - split; [discriminate | intros [H _]; discriminate].
  - split; [discriminate | intros [H _]; discriminate].
Qed.

Lemma missingRequired_boolean (b : bool) (s : option bool) (t : option InputType)
  (p : option string) (r : option bool) :
  missingRequired Number_toString (mkInputConfig (VBoolean b) s t p r) = false.
Proof.
  unfold missingRequired. simpl. destruct r as [[|]|]; destruct b; reflexivity.
Qed.

(** C10: for every mode tag other than the three known ones the handler
    makes no check and raises no alert of its own: it issues the request
    with the empty string as endpoint, no token and the empty object as
    body, and calls the close callback when that request succeeds. *)
Theorem unknown_mode_posts_empty_body (APIHOST : option string) (props : Props)
  (env : Env number) (fs : FieldSet number) :
  modelType props <> "credentials" ->
  modelType props <> "activate" ->
  modelType props <> "install" ->
  handleSubmit Number_toString APIHOST props env fs
  = let r := {| url := EmptyString; method := "POST"; accessToken := None;
                body := JObject [];
                headers := [("Content-Type", "application/json")] |} in
    match sendRequest env r with
    | Fulfilled _ => ([EvSendRequest r; EvOnClose], Normal tt)
    | Rejected e =>
        ([EvSendRequest r; EvAlert (serverErrorMessage e);
          EvConsoleError "Error saving settings:" e], Normal tt)
    end.
Proof.
  intros H1 H2 H3. unfold handleSubmit.
  rewrite prepare_other, bind_ret, send_trace by assumption. reflexivity.
Qed.

End HandlerFacts.

(* ================================================================== *)
(** ** The integral numbers *)

Lemma trim_not_blank (c : ascii) (r : string) :
  isWhiteSpace c = false -> isEmpty (trim (String c r)) = false.
Proof.
  intros H. unfold trim. simpl trimStart. rewrite H.
  simpl trimEnd. rewrite H. reflexivity.
Qed.

(** The decimal numeral of an integer starts with a digit or with the
    minus sign. *)
Lemma Integer_toString_head (z : Z) :
  exists c r, Integer_toString z = String c r /\ isWhiteSpace c = false.
Proof.
  unfold Integer_toString.
  destruct (Z.to_int z) as [u|u]; destruct u; simpl;
    eexists _, _; split; reflexivity.
Qed.

Lemma Integer_toString_not_blank (z : Z) :
  isEmpty (trim (Integer_toString z)) = false.
Proof.
  destruct (Integer_toString_head z) as (c & r & -> & H).
  now apply trim_not_blank.
Qed.

(* ================================================================== *)
(** * The properties at concrete Field Sets *)


(** The example of the specification for activate mode. *)
Lemma activate_body_123_key1 :
  requests (fst (handleSubmit Integer_toString host (propsOf "activate") accepting
                   [("phone_number", textField "123" true);
                    ("whatsapp", textField "key1" true)]))
  = [ {| url := "https://api.example/v1/bot/bot7/activate";
         method := "POST";
         accessToken := None;
         body := JObject [("phone_number", JPrim (VString "123"));
                          ("channels", JObject [("whatsapp", JPrim (VString "key1"))])];
         headers := jsonHeaders |} ].
Proof.
  apply (activate_body Z Integer_toString host (propsOf "activate") accepting
           [("phone_number", textField "123" true);
            ("whatsapp", textField "key1" true)]
           (textField "123" true) (textField "key1" true));
    reflexivity.
Defined.


(** Field Sets in which every required field is filled and yet a field
    does not reach a request body: in activate mode a field other than the
    two well-known ones is left out; in credentials mode a field named
    [__proto__] is left out; in activate mode without [phone_number] the
    handler throws, and in install mode with a failed fetch it returns,
    before any request. *)
Lemma activate_leaves_other_fields_out :
  (requiredFilled Integer_toString
     [("phone_number", textField "123" true); ("whatsapp", textField "key1" true);
      ("note", textField "x" true)] = true
   /\ handleSubmit Integer_toString host (propsOf "activate") accepting
        [("phone_number", textField "123" true); ("whatsapp", textField "key1" true);
         ("note", textField "x" true)]
      = ([EvSendRequest
            {| url := "https://api.example/v1/bot/bot7/activate";
               method := "POST";
               accessToken := None;
               body := JObject [("phone_number", JPrim (VString "123"));
                                ("channels",
                                 JObject [("whatsapp", JPrim (VString "key1"))])];
               headers := jsonHeaders |};
          EvOnClose], Normal tt))
  /\ (requiredFilled Integer_toString
        [("api_key", textField "k" true); ("__proto__", textField "p" true)] = true
      /\ handleSubmit Integer_toString host (propsOf "credentials") accepting
           [("api_key", textField "k" true); ("__proto__", textField "p" true)]
         = ([EvSendRequest
               {| url := "https://api.example/v1/bot/bot7/configure";
                  method := "POST";
                  accessToken := None;
                  body := JObject [("credentials",
                                    JObject [("api_key", JPrim (VString "k"))])];
                  headers := jsonHeaders |};
             EvOnClose], Normal tt))
  /\ (requiredFilled Integer_toString [("whatsapp", textField "key1" true)] = true
      /\ handleSubmit Integer_toString host (propsOf "activate") accepting
           [("whatsapp", textField "key1" true)]
         = ([], Throw TypeError))
  /\ (requiredFilled Integer_toString [("name", textField "n" true)] = true
      /\ handleSubmit Integer_toString host (propsOf "install") refusing
           [("name", textField "n" true)]
         = ([EvFetchSecret;
             EvConsoleError "Failed to fetch the access token:" (Rejection None);
             EvAlert "Failed to fetch the access token"], Return)).
Proof. repeat split; reflexivity. Qed.



(** A request refused with an error that carries no detail: the alert
    shows the word [undefined] between the quotes. *)
Lemma server_error_without_detail :
  handleSubmit Integer_toString host (propsOf "credentials") refusingSilently
    [("api_key", textField "x" true)]
  = ([EvSendRequest
        {| url := "https://api.example/v1/bot/bot7/configure";
           method := "POST";
           accessToken := None;
           body := JObject [("credentials",
                             JObject [("api_key", JPrim (VString "x"))])];
           headers := jsonHeaders |};
      EvAlert ("Error from server " ++ String (ascii_of_nat 34) EmptyString
               ++ "undefined" ++ String (ascii_of_nat 34) EmptyString
               ++ ". Please try again.");
      EvConsoleError "Error saving settings:" (Rejection None)], Normal tt).
Proof. reflexivity. Qed.

Lemma filled_fields_reach_the_request_credentials :
  exists r creds post,
    fst (handleSubmit Integer_toString host (propsOf "credentials") accepting
           [("api_key", textField "x" true); ("port", countField 0 true);
            ("note", textField "   " false)])
    = EvSendRequest r :: post /\
    body r = JObject [("credentials", JObject creds)] /\
    forall k c,
      obj_get k [("api_key", textField "x" true); ("port", countField 0 true);
                 ("note", textField "   " false)] = Some c ->
      obj_get k creds = Some (JPrim (value c)).
Proof.
  apply (filled_fields_reach_the_request Z Integer_toString host
           (propsOf "credentials") accepting
           [("api_key", textField "x" true); ("port", countField 0 true);
            ("note", textField "   " false)]);
    reflexivity.
Defined.

(** In activate mode a required field that is blank, other than the two
    well-known ones, does not stop the request. *)
Lemma activate_posts_despite_blank_required_field :
  missingRequired Integer_toString (textField "  " true) = true
  /\ handleSubmit Integer_toString host (propsOf "activate") accepting
       [("phone_number", textField "123" true); ("whatsapp", textField "key1" true);
        ("email", textField "  " true)]
     = ([EvSendRequest
           {| url := "https://api.example/v1/bot/bot7/activate";
              method := "POST";
              accessToken := None;
              body := JObject [("phone_number", JPrim (VString "123"));
                               ("channels",
                                JObject [("whatsapp", JPrim (VString "key1"))])];
              headers := jsonHeaders |};
         EvOnClose], Normal tt).
Proof. split; reflexivity. Qed.

Lemma blank_required_field_aborts_credentials :
  exists before k c after,
    [("api_key", textField "x" true); ("region", textField "  " true);
     ("zone", textField EmptyString true)]
    = (before ++ (k, c) :: after)%list /\
    requiredFilled Integer_toString before = true /\
    missingRequired Integer_toString c = true /\
    handleSubmit Integer_toString host (propsOf "credentials") accepting
      [("api_key", textField "x" true); ("region", textField "  " true);
       ("zone", textField EmptyString true)]
    = ([EvAlert (k ++ " is required")], Return).
Proof.
  destruct (blank_required_field_aborts Z Integer_toString host
              (propsOf "credentials") accepting
              [("api_key", textField "x" true); ("region", textField "  " true);
               ("zone", textField EmptyString true)]
              "zone" (textField EmptyString true))
    as [(before & k & c & after & Hfs & Hb & Hc & Hrun & _) _].
  - reflexivity.
  - simpl. tauto.
  - reflexivity.
  - exists before, k, c, after. repeat split; try assumption.
    apply Hrun. reflexivity.
Defined.

Lemma install_fetch_failure :
  handleSubmit Integer_toString host (propsOf "install") refusing
    [("tags", listField EmptyString true)]
  = ([EvFetchSecret;
      EvConsoleError "Failed to fetch the access token:" (Rejection None);
      EvAlert "Failed to fetch the access token"], Return).
Proof.
  apply (install_fetches_secret_first Z Integer_toString host (propsOf "install")
           refusing [("tags", listField EmptyString true)]);
    reflexivity.
Defined.

Lemma close_callback_once_or_never :
  closeCount (fst (handleSubmit Integer_toString host (propsOf "credentials") accepting
                     [("api_key", textField "x" true)])) = 1
  /\ (closeCount (fst (handleSubmit Integer_toString host (propsOf "credentials")
                         refusing [("api_key", textField "x" true)])) = 0
      /\ In (EvAlert ("Error from server " ++ String (ascii_of_nat 34) EmptyString
                      ++ "bad key" ++ String (ascii_of_nat 34) EmptyString
                      ++ ". Please try again."))
            (fst (handleSubmit Integer_toString host (propsOf "credentials")
                    refusing [("api_key", textField "x" true)]))
      /\ snd (handleSubmit Integer_toString host (propsOf "credentials")
                refusing [("api_key", textField "x" true)]) = Normal tt).
Proof.
  split.
  - eapply (close_callback_follows_the_post Z Integer_toString host
              (propsOf "credentials") accepting [("api_key", textField "x" true)]).
    + left. reflexivity.
    + reflexivity.
  - match eval cbv in
        (fst (handleSubmit Integer_toString host (propsOf "credentials") refusing
                [("api_key", textField "x" true)]))
    with
    | EvSendRequest ?r :: _ =>
        destruct (close_callback_follows_the_post Z Integer_toString host
                    (propsOf "credentials") refusing
                    [("api_key", textField "x" true)] r (or_introl eq_refl))
          as [_ Hfail]
    end.
    apply (Hfail (Rejection (Some "bad key"))). reflexivity.
Defined.

Lemma updateValue_frame_region :
  keys (updateValue "region" (VString "eu")
          [("api_key", textField "x" true); ("region", textField "y" false)])
  = ["api_key"; "region"]
  /\ obj_get "region"
       (updateValue "region" (VString "eu")
          [("api_key", textField "x" true); ("region", textField "y" false)])
     = Some (textField "eu" false)
  /\ (forall k', k' <> "region" ->
        obj_get k'
          (updateValue "region" (VString "eu")
             [("api_key", textField "x" true); ("region", textField "y" false)])
        = obj_get k' [("api_key", textField "x" true); ("region", textField "y" false)]).
Proof.
  apply (updateValue_frame Z "region" (VString "eu")
           [("api_key", textField "x" true); ("region", textField "y" false)]
           (textField "y" false)).
  reflexivity.
Defined.

(** A required field whose value is [false], and one whose value is [0],
    pass the required check: the request is issued with both values. *)
Lemma false_and_zero_pass_the_required_check :
  toString Integer_toString (VNumber 0%Z) = "0"
  /\ missingRequired Integer_toString (flagField false true) = false
  /\ missingRequired Integer_toString (countField 0 true) = false
  /\ handleSubmit Integer_toString host (propsOf "credentials") accepting
       [("enabled", flagField false true); ("retries", countField 0 true)]
     = ([EvSendRequest
           {| url := "https://api.example/v1/bot/bot7/configure";
              method := "POST";
              accessToken := None;
              body := JObject [("credentials",
                                JObject [("enabled", JPrim (VBoolean false));
                                         ("retries", JPrim (VNumber 0%Z))])];
              headers := jsonHeaders |};
         EvOnClose], Normal tt).
Proof. repeat split; reflexivity. Qed.

Lemma unknown_mode_posts_empty_body_settings :
  handleSubmit Integer_toString host (propsOf "settings") accepting
    [("api_key", textField EmptyString true)]
  = ([EvSendRequest
        {| url := EmptyString; method := "POST"; accessToken := None;
           body := JObject []; headers := jsonHeaders |};
      EvOnClose], Normal tt).
Proof.
  apply (unknown_mode_posts_empty_body Z Integer_toString host (propsOf "settings")
           accepting [("api_key", textField EmptyString true)]);
    discriminate.
Defined.

(* ================================================================== *)
(** * Further properties *)

(** ** Objects: new properties and the enumeration order *)

Lemma keyBefore_asym (a b : string) :
  keyBefore a b = true -> keyBefore b a = false.
Proof.
  unfold keyBefore.
  destruct (arrayIndex a) as [x|], (arrayIndex b) as [y|]; try easy.
  intros H. apply N.ltb_lt in H. apply N.ltb_ge. lia.
Qed.

Lemma keyBefore_trans (a b c : string) :
  keyBefore a b = true -> keyBefore b c = true -> keyBefore a c = true.
Proof.
  unfold keyBefore.
  destruct (arrayIndex a) as [x|], (arrayIndex b) as [y|],
           (arrayIndex c) as [z|]; try easy.
  intros H1 H2. apply N.ltb_lt in H1, H2. apply N.ltb_lt. lia.
Qed.

Section ObjectUpdates.

Context {A : Type}.

Lemma obj_get_add_same (k : string) (v : A) (o : obj A) :
  obj_get k o = None -> obj_get k (obj_add k v o) = Some v.
Proof.
  induction o as [|[k' v'] o IH]; simpl.
  - now rewrite String.eqb_refl.
  - destruct (String.eqb k k') eqn:E; [discriminate|]. intros H.
    destruct (keyBefore k k'); simpl.
    + now rewrite String.eqb_refl.
    + rewrite E. now apply IH.
Qed.

Lemma obj_get_add_other (k k' : string) (v : A) (o : obj A) :
  k' <> k -> obj_get k' (obj_add k v o) = obj_get k' o.
Proof.
  intros Hne. apply String.eqb_neq in Hne.
  induction o as [|[k0 v0] o IH]; simpl.
  - now rewrite Hne.
  - destruct (keyBefore k k0); simpl.
    + now rewrite Hne.
    + now rewrite IH.
Qed.

Lemma obj_add_length (k : string) (v : A) (o : obj A) :
  length (obj_add k v o) = S (length o).
Proof.
  induction o as [|[k0 v0] o IH]; simpl; [reflexivity|].
  destruct (keyBefore k k0); simpl; [reflexivity | now rewrite IH].
Qed.

Lemma obj_replace_add (k : string) (a b : A) (o : obj A) :
  obj_get k o = None -> obj_replace k b (obj_add k a o) = obj_add k b o.
Proof.
  induction o as [|[k' v'] o IH]; simpl.
  - now rewrite String.eqb_refl.
  - destruct (String.eqb k k') eqn:E; [discriminate|]. intros H.
    destruct (keyBefore k k'); simpl.
    + now rewrite String.eqb_refl.
    + rewrite E. now rewrite IH.
Qed.

Lemma obj_replace_replace (k : string) (a b : A) (o : obj A) :
  obj_replace k b (obj_replace k a o) = obj_replace k b o.
Proof.
  induction o as [|[k' v'] o IH]; simpl; [reflexivity|].
  destruct (String.eqb k k') eqn:E; simpl; rewrite E; [reflexivity|].
  now rewrite IH.
Qed.

Lemma obj_replace_comm (k1 k2 : string) (a b : A) (o : obj A) :
  k1 <> k2 ->
  obj_replace k1 a (obj_replace k2 b o) = obj_replace k2 b (obj_replace k1 a o).
Proof.
  intros Hne. induction o as [|[k' v'] o IH]; simpl; [reflexivity|].
  destruct (String.eqb k2 k') eqn:E2; destruct (String.eqb k1 k') eqn:E1; simpl;
    rewrite ?E1, ?E2; try reflexivity.
  - apply String.eqb_eq in E1, E2. congruence.
  - now rewrite IH.
Qed.

Lemma obj_replace_length (k : string) (v : A) (o : obj A) :
  length (obj_replace k v o) = length o.
Proof.
  induction o as [|[k' v'] o IH]; simpl; [reflexivity|].
  destruct (String.eqb k k'); simpl; [reflexivity | now rewrite IH].
Qed.

Lemma forallb_obj_add (p : string * A -> bool) (k : string) (v : A) (o : obj A) :
  forallb p (obj_add k v o) = p (k, v) && forallb p o.
Proof.
  induction o as [|[k' v'] o IH]; simpl; [reflexivity|].
  destruct (keyBefore k k'); simpl; [reflexivity|].
  rewrite IH. now rewrite !andb_assoc, (andb_comm (p (k', v'))).
Qed.

Lemma obj_get_None_keys (k : string) (o : obj A) :
  obj_get k o = None ->
  forallb (fun e => negb (String.eqb (fst e) k)) o = true.
Proof.
  induction o as [|[k' v'] o IH]; simpl; [reflexivity|].
  destruct (String.eqb k k') eqn:E; [discriminate|]. intros H.
  rewrite String.eqb_sym, E. simpl. now apply IH.
Qed.

Lemma obj_get_keys (k : string) (o : obj A) :
  In k (keys o) -> exists v, obj_get k o = Some v.
Proof.
  induction o as [|[k' v'] o IH]; simpl; [tauto|].
  intros [H|H]; destruct (String.eqb k k') eqn:E; eauto.
  subst. now rewrite String.eqb_refl in E.
Qed.

(** The shape of an object depends on its keys only. *)
Lemma obj_wf_keys (B : Type) (o : obj A) (o' : obj B) :
  keys o = keys o' -> obj_wf o = obj_wf o'.
Proof.
  revert o'. induction o as [|[k v] o IH]; intros [|[k' v'] o']; simpl;
    try discriminate; [reflexivity|].
  intros [= -> Hk]. rewrite (IH o' Hk). f_equal.
  clear IH. revert o' Hk. induction o as [|[k0 v0] o IH]; intros [|[k1 v1] o1];
    simpl; try discriminate; [reflexivity|].
  intros [= -> Hk]. now rewrite (IH o1 Hk).
Qed.

(** A new property takes its place in the enumeration order. *)
Lemma obj_wf_add (k : string) (v : A) (o : obj A) :
  obj_wf o = true -> obj_get k o = None -> obj_wf (obj_add k v o) = true.
Proof.
  induction o as [|[k' v'] o IH]; simpl; [reflexivity|].
  intros Hwf Hg. apply andb_true_iff in Hwf as [Hall Hwf].
  destruct (String.eqb k k') eqn:E; [discriminate|].
  destruct (keyBefore k k') eqn:B; simpl.
  - rewrite String.eqb_sym, E, (keyBefore_asym _ _ B), Hall, Hwf. simpl.
    rewrite andb_true_r. apply forallb_forall. intros [k0 v0] Hin. simpl.
    pose proof (obj_get_None_keys k o Hg) as Hfresh.
    rewrite forallb_forall in Hfresh, Hall.
    specialize (Hfresh _ Hin). specialize (Hall _ Hin). simpl in Hfresh, Hall.
    rewrite Hfresh. simpl.
    apply andb_true_iff in Hall as [_ Hall]. apply negb_true_iff in Hall.
    apply negb_true_iff. destruct (keyBefore k0 k) eqn:B0; [|reflexivity].
    now rewrite (keyBefore_trans _ _ _ B0 B) in Hall.
  - rewrite forallb_obj_add. simpl. rewrite E, B, Hall. simpl.
    now apply IH.
Qed.

End ObjectUpdates.

(* ------------------------------------------------------------------ *)
(** ** The form state holder *)

Section StateFacts.

Variable number : Type.
Variable Number_toString : number -> string.

Lemma updateValue_present (key : string) (v : Value number)
  (fs : FieldSet number) (c : InputConfig number) :
  obj_get key fs = Some c ->
  updateValue key v fs = obj_replace key (withValue (Some c) v) fs.
Proof.
  intros H. unfold updateValue, obj_define, obj_has. now rewrite H.
Qed.

Lemma updateValue_absent (key : string) (v : Value number) (fs : FieldSet number) :
  obj_get key fs = None ->
  updateValue key v fs = obj_add key (withValue None v) fs.
Proof.
  intros H. unfold updateValue, obj_define, obj_has. now rewrite H.
Qed.

Lemma updateValue_get (key : string) (v : Value number) (fs : FieldSet number) :
  obj_get key (updateValue key v fs) = Some (withValue (obj_get key fs) v).
Proof.
  destruct (obj_get key fs) as [c|] eqn:E.
  - rewrite (updateValue_present _ _ _ _ E).
    now apply obj_get_replace_same with (w := c).
  - rewrite (updateValue_absent _ _ _ E). now apply obj_get_add_same.
Qed.

Lemma missingCount_add (key : string) (c : InputConfig number)
  (fs : FieldSet number) :
  missingRequired Number_toString c = false ->
  missingCount Number_toString (obj_add key c fs) = missingCount Number_toString fs.
Proof.
  intros Hc. unfold missingCount.
  induction fs as [|[k' c'] fs IH]; simpl.
  - now rewrite Hc.
  - destruct (keyBefore key k'); simpl.
    + now rewrite Hc.
    + destruct (missingRequired Number_toString c'); simpl; now rewrite IH.
Qed.

(** X1: for every Field Set and every key, whether the Field Set has it or
    not, [updateValue] makes the key read back with the new value, and
    every other key reads as it did before. *)
Theorem updateValue_read_back (key : string) (v : Value number)
  (fs : FieldSet number) :
  (exists c, obj_get key (updateValue key v fs) = Some c /\ value c = v)
  /\ (forall k', k' <> key ->
        obj_get k' (updateValue key v fs) = obj_get k' fs).
Proof.
  split.
  - exists (withValue (obj_get key fs) v). split; [apply updateValue_get|].
    now destruct (obj_get key fs).
  - intros k' Hne. destruct (obj_get key fs) as [c|] eqn:E.
    + rewrite (updateValue_present _ _ _ _ E). now apply obj_get_replace_other.
    + rewrite (updateValue_absent _ _ _ E). now apply obj_get_add_other.
Qed.

(** X2: for a key that the Field Set does not have, [updateValue] adds one
    entry that holds the new value and nothing else: no type, no required
    flag, no placeholder, no secrecy. The required check never rejects
    that entry, however blank its value. *)
Theorem updateValue_missing_key (key : string) (v : Value number)
  (fs : FieldSet number) :
  obj_get key fs = None ->
  obj_get key (updateValue key v fs)
  = Some {| value := v; is_secret := None; type := None;
            placeholder := None; required := None |}
  /\ length (updateValue key v fs) = S (length fs)
  /\ missingCount Number_toString (updateValue key v fs)
     = missingCount Number_toString fs.
Proof.
  intros E. split; [|split].
  - rewrite updateValue_get, E. reflexivity.
  - rewrite (updateValue_absent _ _ _ E). apply obj_add_length.
  - rewrite (updateValue_absent _ _ _ E). now apply missingCount_add.
Qed.

(** X3: two updates of the same key in a row leave what the second one
    alone would have left: the last value written wins, and the entry's
    other properties are those it had at first. *)
Theorem updateValue_last_write_wins (key : string) (v1 v2 : Value number)
  (fs : FieldSet number) :
  updateValue key v2 (updateValue key v1 fs) = updateValue key v2 fs.
Proof.
  destruct (obj_get key fs) as [c|] eqn:E.
  - rewrite (updateValue_present key v2 (updateValue key v1 fs)
               (withValue (Some c) v1)).
    + rewrite !(updateValue_present _ _ _ _ E). apply obj_replace_replace.
    + rewrite updateValue_get, E. reflexivity.
  - rewrite (updateValue_present key v2 (updateValue key v1 fs)
               (withValue None v1)).
    + rewrite !(updateValue_absent _ _ _ E). now apply obj_replace_add.
    + rewrite updateValue_get, E. reflexivity.
Qed.

(** X4: updates of two different keys that the Field Set has can be made
    in either order, with the same Field Set as result. *)
Theorem updateValue_commutes (k1 k2 : string) (v1 v2 : Value number)
  (fs : FieldSet number) (c1 c2 : InputConfig number) :
  k1 <> k2 ->
  obj_get k1 fs = Some c1 -> obj_get k2 fs = Some c2 ->
  updateValue k1 v1 (updateValue k2 v2 fs)
  = updateValue k2 v2 (updateValue k1 v1 fs).
Proof.
  intros Hne H1 H2.
  rewrite (updateValue_present k2 v2 fs c2 H2), (updateValue_present k1 v1 fs c1 H1).
  rewrite (updateValue_present k1 v1 _ c1), (updateValue_present k2 v2 _ c2).
  - apply obj_replace_comm. exact Hne.
  - rewrite obj_get_replace_other; [exact H2 | congruence].
  - rewrite obj_get_replace_other; [exact H1 | congruence].
Qed.

(** X5: [updateValue] keeps a Field Set a property list: after it no key
    stands twice and the keys are in enumeration order, whether the key
    was there (it keeps its place) or not (it takes the place that its
    name gives it). *)
Theorem updateValue_keeps_shape (key : string) (v : Value number)
  (fs : FieldSet number) :
  obj_wf fs = true -> obj_wf (updateValue key v fs) = true.
Proof.
  intros Hwf. destruct (obj_get key fs) as [c|] eqn:E.
  - rewrite (updateValue_present _ _ _ _ E).
    rewrite (obj_wf_keys _ _ fs); [exact Hwf | apply obj_replace_keys].
  - rewrite (updateValue_absent _ _ _ E). now apply obj_wf_add.
Qed.

End StateFacts.

(* ------------------------------------------------------------------ *)
(** ** The submission handler, over all its runs *)

Section SubmitFacts.

Variable number : Type.
Variable Number_toString : number -> string.

Lemma alerts_app (t1 t2 : list (Event number)) :
  alerts (t1 ++ t2)%list = (alerts t1 ++ alerts t2)%list.
Proof.
  induction t1 as [|ev t1 IH]; [reflexivity|].
  destruct ev; simpl; rewrite ?IH; reflexivity.
Qed.

(** A loop over keys that the Field Set has never throws. *)
Lemma credentialsLoop_total (fs : FieldSet number) (todo : list string)
  (acc : obj (JsVal number)) :
  (forall k, In k todo -> exists c, obj_get k fs = Some c) ->
  (exists a, credentialsLoop Number_toString fs todo acc = ret a)
  \/ (exists k, credentialsLoop Number_toString fs todo acc
                = ([EvAlert (k ++ " is required")], Return)).
Proof.
  revert acc. induction todo as [|k todo IH]; intros acc Hin; simpl.
  - left. now exists acc.
  - destruct (Hin k (or_introl eq_refl)) as [c Hc].
    unfold getField. rewrite Hc, bind_ret.
    destruct (missingRequired Number_toString c).
    + right. now exists k.
    + apply IH. intros k' Hk'. apply Hin. now right.
Qed.

Lemma installLoop_total (fs : FieldSet number) (todo : list string)
  (acc : obj (JsVal number)) :
  (forall k, In k todo -> exists c, obj_get k fs = Some c) ->
  (exists a, installLoop Number_toString fs todo acc = ret a)
  \/ (exists k, installLoop Number_toString fs todo acc
                = ([EvAlert (k ++ " is required")], Return)).
Proof.
  revert acc. induction todo as [|k todo IH]; intros acc Hin; simpl.
  - left. now exists acc.
  - destruct (Hin k (or_introl eq_refl)) as [c Hc].
    unfold getField. rewrite Hc, bind_ret.
    destruct (missingRequired Number_toString c).
    + right. now exists k.
    + destruct (type c) as [[| | | |]|]; apply IH;
        intros k' Hk'; apply Hin; now right.
Qed.

(** The three ways in which the branch on the mode ends: normally, with
    nothing alerted; by [return], after exactly one alert; by a
    [TypeError], in activate mode, with nothing recorded. *)
Lemma prepare_outcome (APIHOST : option string) (props : Props)
  (env : Env number) (fs : FieldSet number) :
  (exists pre l,
      prepare Number_toString APIHOST props env fs = (pre, Normal l) /\
      alerts pre = [])
  \/ (exists pre m,
        prepare Number_toString APIHOST props env fs = (pre, Return) /\
        alerts pre = [m])
  \/ (prepare Number_toString APIHOST props env fs = ([], Throw TypeError) /\
      modelType props = "activate" /\
      (obj_get "phone_number" fs = None
       \/ exists p, obj_get "phone_number" fs = Some p /\
                    missingRequired Number_toString p = false /\
                    obj_get "whatsapp" fs = None)).
Proof.
  unfold prepare.
  destruct (String.eqb (modelType props) "credentials") eqn:E1;
    [|destruct (String.eqb (modelType props) "activate") eqn:E2;
      [|destruct (String.eqb (modelType props) "install") eqn:E3]].
  - unfold credentialsBranch.
    destruct (credentialsLoop_total fs (keys fs) [] (fun k => obj_get_keys k fs))
      as [[a ->]|[k ->]].
    + left. rewrite bind_ret. eexists _, _. split; reflexivity.
    + right. left. eexists _, _. split; reflexivity.
  - apply String.eqb_eq in E2. unfold activateBranch, getField.
    destruct (obj_get "phone_number" fs) as [p|] eqn:Hp.
    + rewrite bind_ret. destruct (missingRequired Number_toString p) eqn:Mp.
      * right. left. eexists _, _. split; reflexivity.
      * destruct (obj_get "whatsapp" fs) as [w|] eqn:Hw.
        -- rewrite bind_ret. destruct (missingRequired Number_toString w).
           ++ right. left. eexists _, _. split; reflexivity.
           ++ left. eexists _, _. split; reflexivity.
        -- right. right. split; [reflexivity|]. split; [exact E2|].
           right. now exists p.
    + right. right. split; [reflexivity|]. split; [exact E2|]. now left.
  - unfold installBranch. destruct (fetchSecret env) as [tok|e].
    + destruct (installLoop_total fs (keys fs) [] (fun k => obj_get_keys k fs))
        as [[a ->]|[k ->]].
      * left. eexists _, _. split; reflexivity.
      * right. left. eexists _, _. split; reflexivity.
    + right. left. eexists _, _. split; reflexivity.
  - left. eexists _, _. split; reflexivity.
Qed.

(** X6: in every run of the handler, whatever the mode, the Field Set and
    the collaborators, at most one request is issued, at most one alert is
    shown and the close callback is called at most once; the close
    callback is called only after a request, and never in a run that shows
    an alert. *)
Theorem handleSubmit_at_most_once (APIHOST : option string) (props : Props)
  (env : Env number) (fs : FieldSet number) :
  length (requests (fst (handleSubmit Number_toString APIHOST props env fs))) <= 1
  /\ length (alerts (fst (handleSubmit Number_toString APIHOST props env fs))) <= 1
  /\ closeCount (fst (handleSubmit Number_toString APIHOST props env fs)) <= 1
  /\ (closeCount (fst (handleSubmit Number_toString APIHOST props env fs)) = 1 ->
      length (requests (fst (handleSubmit Number_toString APIHOST props env fs))) = 1
      /\ alerts (fst (handleSubmit Number_toString APIHOST props env fs)) = []).
Proof.
  pose proof (prepare_quiet number Number_toString APIHOST props env fs) as [Hq Hc].
  destruct (prepare_outcome APIHOST props env fs)
    as [(pre & l & E & Ha)|[(pre & m & E & Ha)|(E & _)]].
  - rewrite E in Hq, Hc. simpl in Hq, Hc.
    rewrite (handleSubmit_prepared _ _ _ _ _ _ _ _ E), send_trace.
    destruct (sendRequest env (requestOf l)); simpl fst;
      rewrite requests_app, alerts_app, closeCount_app, Hq, Ha, Hc;
      unfold closeCount; simpl;
      (split; [lia | split; [lia | split; [lia|]]]);
      intros H; first [discriminate H | split; reflexivity].
  - rewrite E in Hq, Hc. simpl in Hq, Hc.
    rewrite (handleSubmit_aborted _ _ _ _ _ _ _ E). simpl fst.
    rewrite Hq, Ha, Hc. simpl.
    (split; [lia | split; [lia | split; [lia|]]]). intros H. discriminate H.
  - unfold handleSubmit. rewrite E. unfold closeCount. simpl.
    (split; [lia | split; [lia | split; [lia|]]]). intros H. discriminate H.
Qed.

(** X7: the handler ends by a thrown error exactly in activate mode when
    the Field Set lacks [phone_number], or has it passing the required
    check and lacks [whatsapp]; the error is then the [TypeError] of the
    lookup, and nothing at all was alerted, requested or closed. *)
Theorem handleSubmit_throws_on_missing_field (APIHOST : option string)
  (props : Props) (env : Env number) (fs : FieldSet number) :
  ((exists e, snd (handleSubmit Number_toString APIHOST props env fs) = Throw e)
   <->
   modelType props = "activate" /\
   (obj_get "phone_number" fs = None
    \/ exists p, obj_get "phone_number" fs = Some p /\
                 missingRequired Number_toString p = false /\
                 obj_get "whatsapp" fs = None))
  /\ (forall e, snd (handleSubmit Number_toString APIHOST props env fs) = Throw e ->
      handleSubmit Number_toString APIHOST props env fs = ([], Throw TypeError)).
Proof.
  assert (Hthrow : forall e,
    snd (handleSubmit Number_toString APIHOST props env fs) = Throw e ->
    prepare Number_toString APIHOST props env fs = ([], Throw TypeError) /\
    modelType props = "activate" /\
    (obj_get "phone_number" fs = None
     \/ exists p, obj_get "phone_number" fs = Some p /\
                  missingRequired Number_toString p = false /\
                  obj_get "whatsapp" fs = None)).
  { intros e He.
    destruct (prepare_outcome APIHOST props env fs)
      as [(pre & l & E & _)|[(pre & m & E & _)|(E & Hm & Hk)]].
    - rewrite (handleSubmit_prepared _ _ _ _ _ _ _ _ E), send_trace in He.
      destruct (sendRequest env (requestOf l)); discriminate.
    - rewrite (handleSubmit_aborted _ _ _ _ _ _ _ E) in He. discriminate.
    - now repeat split. }
  split; [split|].
  - intros [e He]. now destruct (Hthrow e He) as (_ & Hm & Hk).
  - intros [Hm Hk]. exists TypeError.
    unfold handleSubmit. rewrite prepare_activate by assumption.
    unfold activateBranch, getField.
    destruct Hk as [Hp|(p & Hp & Mp & Hw)].
    + now rewrite Hp.
    + rewrite Hp, bind_ret, Mp, Hw. reflexivity.
  - intros e He. destruct (Hthrow e He) as (E & _).
    unfold handleSubmit. now rewrite E.
Qed.

Lemma firstMissing_app (before rest : FieldSet number) :
  requiredFilled Number_toString before = true ->
  firstMissing Number_toString (before ++ rest)%list
  = firstMissing Number_toString rest.
Proof.
  induction before as [|[k c] before IH]; simpl; [reflexivity|].
  intros H. apply andb_true_iff in H as [Hc H].
  apply negb_true_iff in Hc. rewrite Hc. now apply IH.
Qed.

(** X8: when several required fields are blank, the one reported is the
    first in enumeration order: for a Field Set whose fields before [k]
    all pass the required check and whose field [k] does not, the handler
    alerts that [k] is required, in credentials mode at once and in install
    mode after the fetch, and returns; the fields after [k] are not looked
    at. *)
Theorem first_blank_field_is_reported (APIHOST : option string) (props : Props)
  (env : Env number) (before after : FieldSet number) (k : string)
  (c : InputConfig number) :
  obj_wf (before ++ (k, c) :: after)%list = true ->
  requiredFilled Number_toString before = true ->
  missingRequired Number_toString c = true ->
  (modelType props = "credentials" ->
   handleSubmit Number_toString APIHOST props env (before ++ (k, c) :: after)%list
   = ([EvAlert (k ++ " is required")], Return))
  /\ (modelType props = "install" ->
      forall tok, fetchSecret env = Fulfilled tok ->
      handleSubmit Number_toString APIHOST props env (before ++ (k, c) :: after)%list
      = ([EvFetchSecret; EvAlert (k ++ " is required")], Return)).
Proof.
  intros Hwf Hb Hc.
  assert (Hfirst : firstMissing Number_toString (before ++ (k, c) :: after)%list
                   = Some k).
  { rewrite firstMissing_app by assumption. simpl. now rewrite Hc. }
  split.
  - intros Hm. apply handleSubmit_aborted. rewrite prepare_credentials by assumption.
    unfold credentialsBranch.
    now rewrite (credentialsLoop_missing number Number_toString _ [] k [] Hwf Hfirst
                 : credentialsLoop Number_toString (before ++ (k, c) :: after)%list
                       (keys (before ++ (k, c) :: after)%list) [] = _).
  - intros Hm tok Hf. apply handleSubmit_aborted.
    rewrite prepare_install by assumption. unfold installBranch. rewrite Hf.
    now rewrite (installLoop_missing number Number_toString _ [] k [] Hwf Hfirst
                 : installLoop Number_toString (before ++ (k, c) :: after)%list
                       (keys (before ++ (k, c) :: after)%list) [] = _).
Qed.

Lemma missingCount_zero (fs : FieldSet number) :
  missingCount Number_toString fs = 0 <-> requiredFilled Number_toString fs = true.
Proof.
  unfold missingCount, requiredFilled.
  induction fs as [|[k c] fs IH]; simpl; [tauto|].
  destruct (missingRequired Number_toString c); simpl.
  - split; discriminate.
  - exact IH.
Qed.

Lemma missingCount_replace (k : string) (c c' : InputConfig number)
  (fs : FieldSet number) :
  obj_get k fs = Some c ->
  missingRequired Number_toString c = true ->
  missingRequired Number_toString c' = false ->
  S (missingCount Number_toString (obj_replace k c' fs))
  = missingCount Number_toString fs.
Proof.
  intros Hg Hc Hc'. unfold missingCount.
  induction fs as [|[k0 c0] fs IH]; simpl in *; [discriminate|].
  destruct (String.eqb k k0).
  - injection Hg as ->. simpl. now rewrite Hc, Hc'.
  - simpl. destruct (missingRequired Number_toString c0); simpl; now rewrite IH.
Qed.

(** X9: filling in a field that the required check rejects, with a value
    whose string form is not blank, leaves exactly one rejected field
    less; when it was the only one, the Field Set then passes the required
    check. *)
Theorem filling_a_blank_field_makes_progress (k : string) (v : Value number)
  (fs : FieldSet number) (c : InputConfig number) :
  obj_get k fs = Some c ->
  missingRequired Number_toString c = true ->
  isEmpty (trim (toString Number_toString v)) = false ->
  S (missingCount Number_toString (updateValue k v fs))
  = missingCount Number_toString fs
  /\ (missingCount Number_toString fs = 1 ->
      requiredFilled Number_toString (updateValue k v fs) = true).
Proof.
  intros Hg Hc Hv.
  assert (Hstep : S (missingCount Number_toString (updateValue k v fs))
                  = missingCount Number_toString fs).
  { rewrite (updateValue_present number k v fs c Hg).
    apply missingCount_replace with (c := c); try assumption.
    unfold missingRequired. simpl. destruct (required c) as [[|]|]; auto. }
  split; [exact Hstep|].
  intros H1. apply missingCount_zero. lia.
Qed.

(** A loop over keys whose fields all pass the required check runs to
    its end. *)
Lemma credentialsLoop_passes (fs : FieldSet number) (todo : list string)
  (acc : obj (JsVal number)) :
  (forall k, In k todo ->
     exists c, obj_get k fs = Some c /\ missingRequired Number_toString c = false) ->
  exists a, credentialsLoop Number_toString fs todo acc = ret a.
Proof.
  revert acc. induction todo as [|k todo IH]; intros acc Hin; simpl.
  - now exists acc.
  - destruct (Hin k (or_introl eq_refl)) as (c & Hc & Hm).
    unfold getField. rewrite Hc, bind_ret, Hm.
    apply IH. intros k' Hk'. apply Hin. now right.
Qed.

Lemma installLoop_passes (fs : FieldSet number) (todo : list string)
  (acc : obj (JsVal number)) :
  (forall k, In k todo ->
     exists c, obj_get k fs = Some c /\ missingRequired Number_toString c = false) ->
  exists a, installLoop Number_toString fs todo acc = ret a.
Proof.
  revert acc. induction todo as [|k todo IH]; intros acc Hin; simpl.
  - now exists acc.
  - destruct (Hin k (or_introl eq_refl)) as (c & Hc & Hm).
    unfold getField. rewrite Hc, bind_ret, Hm.
    destruct (type c) as [[| | | |]|]; apply IH;
      intros k' Hk'; apply Hin; now right.
Qed.

(** When no field of the Field Set is rejected by the required check, the
    first call recorded in credentials mode is the request, and in install
    mode, the secret fetched, the calls recorded start with the fetch and
    the request. *)
Lemma passing_fields_reach_the_request (APIHOST : option string) (props : Props)
  (env : Env number) (fs : FieldSet number) :
  (forall k c, In (k, c) fs -> missingRequired Number_toString c = false) ->
  (modelType props = "credentials" ->
   exists r post,
     fst (handleSubmit Number_toString APIHOST props env fs) = EvSendRequest r :: post)
  /\ (modelType props = "install" ->
      forall tok, fetchSecret env = Fulfilled tok ->
      exists r post,
        fst (handleSubmit Number_toString APIHOST props env fs)
        = EvFetchSecret :: EvSendRequest r :: post).
Proof.
  intros Hpass.
  assert (Hkeys : forall k, In k (keys fs) ->
            exists c, obj_get k fs = Some c /\
                      missingRequired Number_toString c = false).
  { intros k Hk. destruct (obj_get_keys k fs Hk) as [c Hc].
    exists c. split; [exact Hc|]. apply (Hpass k c). now apply obj_get_In. }
  split.
  - intros Hm. destruct (credentialsLoop_passes fs (keys fs) [] Hkeys) as [a Ha].
    unfold handleSubmit. rewrite prepare_credentials by assumption.
    unfold credentialsBranch. rewrite Ha, !bind_ret.
    destruct (send_head number env
                {| data := obj_assign "credentials" (JObject a) [];
                   apiEndpoint := templateString APIHOST ++ "/v1/bot/"
                                  ++ templateString (botId props) ++ "/configure";
                   token := None |}) as [post Hpost].
    rewrite Hpost. eexists _, _. reflexivity.
  - intros Hm tok Hf. destruct (installLoop_passes fs (keys fs) [] Hkeys) as [a Ha].
    unfold handleSubmit. rewrite prepare_install by assumption.
    unfold installBranch. rewrite Hf, Ha, bind_ret.
    change (bind (emit EvFetchSecret)
              (fun _ => ret {| data := a;
                               apiEndpoint := templateString APIHOST ++ "/v1/bot/install";
                               token := Some tok |}))
      with ([@EvFetchSecret number],
            Normal {| data := a;
                      apiEndpoint := templateString APIHOST ++ "/v1/bot/install";
                      token := Some tok |}).
    rewrite bind_normal.
    destruct (send_head number env
                {| data := a;
                   apiEndpoint := templateString APIHOST ++ "/v1/bot/install";
                   token := Some tok |}) as [post Hpost].
    simpl fst. rewrite Hpost. eexists _, _. reflexivity.
Qed.

End SubmitFacts.

(** C9 (as amended): the required check rejects a field exactly when the
    field is required and the string form of its value trims to the empty
    string; a boolean value, [false] as well as [true], always passes it,
    and so does every integer from [-2^53] to [2^53], [0] included. A
    Field Set whose fields all hold such values is not stopped by the
    check: in credentials mode the first call that the handler records is
    the request, and in install mode, the secret fetched, the fetch and
    then the request. *)
Theorem required_check_reads_the_string_form :
  (forall (number : Type) (Number_toString : number -> string)
          (c : InputConfig number),
     missingRequired Number_toString c = true <->
     required c = Some true /\
     trim (toString Number_toString (value c)) = EmptyString)
  /\ (forall (number : Type) (Number_toString : number -> string)
             (b : bool) s t p r,
        missingRequired Number_toString (mkInputConfig (VBoolean b) s t p r) = false)
  /\ (forall (z : Z) s t p r,
        (Z.abs z <= 2 ^ 53)%Z ->
        missingRequired Integer_toString (mkInputConfig (VNumber z) s t p r) = false)
  /\ (forall (APIHOST : option string) (props : Props) (env : Env Z)
             (fs : FieldSet Z),
        (forall k c, In (k, c) fs ->
           (exists b, value c = VBoolean b)
           \/ (exists z, value c = VNumber z /\ (Z.abs z <= 2 ^ 53)%Z)) ->
        (modelType props = "credentials" ->
         exists r post,
           fst (handleSubmit Integer_toString APIHOST props env fs)
           = EvSendRequest r :: post)
        /\ (modelType props = "install" ->
            forall tok, fetchSecret env = Fulfilled tok ->
            exists r post,
              fst (handleSubmit Integer_toString APIHOST props env fs)
              = EvFetchSecret :: EvSendRequest r :: post)).
Proof.
  split; [|split; [|split]].
  - intros number Number_toString c. apply missingRequired_iff.
  - intros number Number_toString b s t p r. apply missingRequired_boolean.
  - intros z s t p r _. unfold missingRequired. simpl.
    destruct r as [[|]|]; try reflexivity. apply Integer_toString_not_blank.
  - intros APIHOST props env fs Hvals.
    apply passing_fields_reach_the_request.
    intros k c Hin. destruct c as [v s t p r]. simpl in Hvals.
    destruct (Hvals k _ Hin) as [[b Hb]|(z & Hz & _)]; simpl in Hb || simpl in Hz; subst v.
    + apply missingRequired_boolean.
    + unfold missingRequired. simpl.
      destruct r as [[|]|]; try reflexivity. apply Integer_toString_not_blank.
Qed.

(* ------------------------------------------------------------------ *)
(** ** Strings: what [trim] and [split] keep *)

Lemma trimEnd_idem (s : string) : trimEnd (trimEnd s) = trimEnd s.
Proof.
  induction s as [|c r IH]; simpl; [reflexivity|].
  destruct (isWhiteSpace c && isEmpty (trimEnd r)) eqn:E; simpl; [reflexivity|].
  now rewrite IH, E.
Qed.

(** A string that does not start with white space. *)
Definition headKept (s : string) : bool :=
  match s with
  | EmptyString => true
  | String c _ => negb (isWhiteSpace c)
  end.

Lemma trimStart_headKept (s : string) : headKept (trimStart s) = true.
Proof.
  induction s as [|c r IH]; simpl; [reflexivity|].
  destruct (isWhiteSpace c) eqn:E; simpl; [exact IH | now rewrite E].
Qed.

Lemma trimStart_fixed (s : string) : headKept s = true -> trimStart s = s.
Proof.
  destruct s as [|c r]; simpl; [reflexivity|].
  intros H. apply negb_true_iff in H. now rewrite H.
Qed.

Lemma trimEnd_headKept (s : string) :
  headKept s = true -> headKept (trimEnd s) = true.
Proof.
  destruct s as [|c r]; simpl; [reflexivity|].
  intros H. apply negb_true_iff in H. rewrite H. simpl. now rewrite H.
Qed.

Lemma trim_idem (s : string) : trim (trim s) = trim s.
Proof.
  unfold trim.
  rewrite (trimStart_fixed (trimEnd (trimStart s))).
  - apply trimEnd_idem.
  - apply trimEnd_headKept, trimStart_headKept.
Qed.

Lemma countCommas_trimStart (s : string) :
  countCommas (trimStart s) <= countCommas s.
Proof.
  induction s as [|c r IH]; simpl; [lia|].
  destruct (isWhiteSpace c); simpl; lia.
Qed.

Lemma countCommas_trimEnd (s : string) :
  countCommas (trimEnd s) <= countCommas s.
Proof.
  induction s as [|c r IH]; simpl; [lia|].
  destruct (isWhiteSpace c && isEmpty (trimEnd r)); simpl; lia.
Qed.

Lemma split_length (s : string) :
  length (split comma s) = S (countCommas s).
Proof.
  induction s as [|c r IH]; simpl; [reflexivity|].
  destruct (Ascii.eqb c comma); simpl; [now rewrite IH|].
  destruct (split comma r) as [|seg segs]; simpl in *; [discriminate | exact IH].
Qed.

Lemma split_no_comma (s seg : string) :
  In seg (split comma s) -> countCommas seg = 0.
Proof.
  revert seg. induction s as [|c r IH]; simpl; intros seg.
  - intros [<-|[]]. reflexivity.
  - destruct (Ascii.eqb c comma) eqn:E; simpl.
    + intros [<-|H]; [reflexivity | now apply IH].
    + destruct (split comma r) as [|seg0 segs]; simpl.
      * intros [<-|[]]. simpl. now rewrite E.
      * intros [<-|H].
        -- simpl. rewrite E. apply IH. now left.
        -- apply IH. now right.
Qed.

Lemma concat_split (s : string) :
  String.concat "," (split comma s) = s.
Proof.
  induction s as [|c r IH]; simpl; [reflexivity|].
  destruct (Ascii.eqb c comma) eqn:E.
  - apply Ascii.eqb_eq in E. subst c.
    pose proof (split_length r) as Hl.
    destruct (split comma r) as [|seg segs]; [discriminate|].
    change (String.concat "," (EmptyString :: seg :: segs))
      with (String comma (String.concat "," (seg :: segs))).
    now rewrite IH.
  - pose proof (split_length r) as Hl.
    destruct (split comma r) as [|seg segs]; [discriminate|].
    destruct segs as [|seg' segs].
    + simpl in *. now rewrite IH.
    + change (String.concat "," (String c seg :: seg' :: segs))
        with (String c (String.concat "," (seg :: seg' :: segs))).
      now rewrite IH.
Qed.

Section ListFacts.

Variable number : Type.
Variable Number_toString : number -> string.

(** X10: the sequence that a list field is serialized to is never empty
    (a blank value gives one empty item); it has one item more than the
    value's string form has commas, and every item is free of commas and
    of white space at its two ends. *)
Theorem listValue_items (v : Value number) :
  exists items,
    listValue Number_toString v = JArray (map (fun s => JPrim (VString s)) items)
    /\ length items = S (countCommas (toString Number_toString v))
    /\ (forall s, In s items -> trim s = s /\ countCommas s = 0).
Proof.
  exists (map trim (split comma (toString Number_toString v))).
  split; [apply listValue_spec|]. split.
  - rewrite length_map. apply split_length.
  - intros s Hin. apply in_map_iff in Hin as (seg & <- & Hseg). split.
    + apply trim_idem.
    + pose proof (split_no_comma _ _ Hseg) as H0.
      pose proof (countCommas_trimEnd (trimStart seg)) as H1.
      pose proof (countCommas_trimStart seg) as H2.
      unfold trim. lia.
Qed.

(** X11: a list value whose segments carry no white space at their ends is
    sent segment by segment: joining the items of the serialized sequence
    with commas gives back the value's string form. *)
Theorem listValue_round_trip (v : Value number) :
  (forall seg, In seg (split comma (toString Number_toString v)) -> trim seg = seg) ->
  exists items,
    listValue Number_toString v = JArray (map (fun s => JPrim (VString s)) items)
    /\ String.concat "," items = toString Number_toString v.
Proof.
  intros Hclean.
  exists (split comma (toString Number_toString v)). split.
  - rewrite listValue_spec. do 2 f_equal.
    rewrite <- (map_id (split comma (toString Number_toString v))) at 2.
    now apply map_ext_in.
  - apply concat_split.
Qed.

End ListFacts.

(* ------------------------------------------------------------------ *)
(** ** The dialog *)

Section ViewFacts.

Variable number : Type.
Variable Number_toString : number -> string.
Variable Number : string -> number.

Lemma renderFields_keys (fs : FieldSet number) (todo : list string) :
  (forall k, In k todo -> exists c, obj_get k fs = Some c) ->
  exists rows,
    renderFields Number_toString fs todo = Some rows /\ map rowKey rows = todo
    /\ (forall row, In row rows ->
         exists c, obj_get (rowKey row) fs = Some c
                   /\ rowLabel row
                      = match required c with
                        | Some true => rowKey row ++ " *"
                        | _ => rowKey row
                        end
                   /\ rowControl row = renderControl Number_toString c).
Proof.
  induction todo as [|k todo IH]; intros Hin; simpl.
  - exists []. repeat split; auto. intros row [].
  - destruct (Hin k (or_introl eq_refl)) as [c Hc].
    destruct IH as (rows & Hr & Hk & Hrows); [intros k' Hk'; apply Hin; now right|].
    unfold renderField. rewrite Hc, Hr.
    eexists. split; [reflexivity|]. split; [simpl; now rewrite Hk|].
    intros row [<-|Hrow]; [|now apply Hrows].
    exists c. simpl. unfold renderLabel. rewrite Hc.
    split; [reflexivity|]. split; [|reflexivity].
    now destruct (required c) as [[|]|].
Qed.

(** X12: rendering never faults, whatever the Field Set: a closed dialog
    shows nothing; an open dialog shows one row for each key of the Field
    Set, in enumeration order, each row with the label and the element of
    the field of that key, under the given title when it is not empty and
    under the heading Settings when the title is missing or empty. *)
Theorem render_shows_every_field (title : option string) (fs : FieldSet number) :
  render Number_toString title false fs = inr None
  /\ exists shownHeading rows,
       render Number_toString title true fs
       = inr (Some {| heading := shownHeading; fieldRows := rows |})
       /\ (forall ch rest, title = Some (String ch rest) ->
              shownHeading = String ch rest)
       /\ (title = None \/ title = Some EmptyString -> shownHeading = "Settings")
       /\ map rowKey rows = keys fs
       /\ (forall row, In row rows ->
            exists c, obj_get (rowKey row) fs = Some c
                      /\ rowLabel row
                         = match required c with
                           | Some true => rowKey row ++ " *"
                           | _ => rowKey row
                           end
                      /\ rowControl row = renderControl Number_toString c).
Proof.
  split; [reflexivity|].
  destruct (renderFields_keys fs (keys fs) (fun k => obj_get_keys k fs))
    as (rows & Hr & Hk & Hrows).
  exists (headingOf title), rows. unfold render. simpl. rewrite Hr.
  split; [reflexivity|]. split; [|split; [|split]].
  - intros ch rest ->. reflexivity.
  - intros [->| ->]; reflexivity.
  - exact Hk.
  - exact Hrows.
Qed.

(** X13: a field that the required check rejects is shown with the
    asterisk after its name, and what its element shows is blank: the
    check never rejects a field that is shown unmarked or with a visible
    value. *)
Theorem rejected_field_is_starred_and_blank (fs : FieldSet number) (k : string)
  (c : InputConfig number) :
  obj_get k fs = Some c ->
  missingRequired Number_toString c = true ->
  exists control,
    renderField Number_toString fs k
    = Some {| rowKey := k; rowLabel := k ++ " *"; rowControl := control |}
    /\ trim (shownOf control) = EmptyString.
Proof.
  intros Hg Hm. exists (renderControl Number_toString c).
  apply (missingRequired_iff number Number_toString) in Hm as [Hr Ht].
  unfold renderField, renderLabel. rewrite Hg, Hr. split; [reflexivity|].
  unfold renderControl. destruct (type c) as [[| | | |]|]; exact Ht.
Qed.

(** X14: the element of a field hides what is typed exactly when the
    field is secret and not of type text: a secret field of type text is
    shown in a [textarea], in clear. *)
Theorem secret_is_masked_unless_text (c : InputConfig number) :
  (exists shown hint,
      renderControl Number_toString c = Input "password" shown hint)
  <-> (is_secret c = Some true /\ type c <> Some TyText).
Proof.
  unfold renderControl, getInputType. split.
  - intros (shown & hint & H).
    destruct (type c) as [[| | | |]|]; destruct (is_secret c) as [[|]|];
      try discriminate H; split; congruence.
  - intros [Hs Ht]. rewrite Hs.
    destruct (type c) as [[| | | |]|]; try congruence; eexists _, _; reflexivity.
Qed.

Lemma renderLabel_updateValue (fs : FieldSet number) (key : string)
  (v : Value number) (c : InputConfig number) :
  obj_get key fs = Some c ->
  renderLabel (updateValue key v fs) key = renderLabel fs key.
Proof.
  intros Hg. unfold renderLabel. now rewrite updateValue_get, Hg.
Qed.

(** X15: an edit changes what the element of the field shows and nothing
    else of its row: after [onChange] on a field of the Field Set, the row
    has the same label and the same element (kind, type, placeholder),
    which now shows the string form of the value stored; for every element
    other than a number input, that is the text typed. *)
Theorem edit_changes_only_what_is_shown (fs : FieldSet number) (key : string)
  (c : InputConfig number) (text : string) :
  obj_get key fs = Some c ->
  renderField Number_toString
    (onChange Number key (renderControl Number_toString c) text fs) key
  = Some {| rowKey := key;
            rowLabel := renderLabel fs key;
            rowControl :=
              withShown (renderControl Number_toString c)
                (toString Number_toString
                   (changedValue Number (renderControl Number_toString c) text)) |}
  /\ ((forall shown hint,
         renderControl Number_toString c <> Input "number" shown hint) ->
      toString Number_toString
        (changedValue Number (renderControl Number_toString c) text) = text).
Proof.
  intros Hg. split.
  - unfold onChange, renderField.
    rewrite (renderLabel_updateValue fs key _ c Hg), updateValue_get, Hg.
    do 2 f_equal. unfold renderControl, getInputType. simpl.
    destruct (type c) as [[| | | |]|]; reflexivity.
  - intros Hnot. unfold renderControl, getInputType in *.
    destruct (type c) as [[| | | |]|]; destruct (is_secret c) as [[|]|];
      try reflexivity; exfalso; eapply Hnot; reflexivity.
Qed.

(** X16: where the string form of a number is never blank, a required
    field edited through a number input passes the required check
    whatever was typed, the empty text included: the text is stored as a
    number. *)
Theorem number_input_is_never_blank (fs : FieldSet number) (key : string)
  (c : InputConfig number) (shown hint text : string) :
  (forall n, isEmpty (trim (Number_toString n)) = false) ->
  obj_get key fs = Some c ->
  renderControl Number_toString c = Input "number" shown hint ->
  exists c',
    obj_get key (onChange Number key (renderControl Number_toString c) text fs)
    = Some c'
    /\ value c' = VNumber (Number text)
    /\ missingRequired Number_toString c' = false.
Proof.
  intros Hnum Hg Hc. rewrite Hc. unfold onChange. simpl changedValue.
  rewrite updateValue_get, Hg. eexists. split; [reflexivity|]. simpl.
  split; [reflexivity|]. unfold missingRequired. simpl.
  destruct (required c) as [[|]|]; auto.
Qed.

End ViewFacts.

(* ------------------------------------------------------------------ *)
(** ** The further properties at concrete Field Sets *)

Lemma updateValue_missing_key_region :
  obj_get "region"
    (updateValue "region" (VString EmptyString) [("api_key", textField "x" true)])
  = Some {| value := VString EmptyString; is_secret := None; type := None;
            placeholder := None; required := None |}
  /\ length (updateValue "region" (VString EmptyString)
               [("api_key", textField "x" true)]) = 2
  /\ missingCount Integer_toString
       (updateValue "region" (VString EmptyString) [("api_key", textField "x" true)])
     = missingCount Integer_toString [("api_key", textField "x" true)].
Proof.
  apply (updateValue_missing_key Z Integer_toString "region" (VString EmptyString)
           [("api_key", textField "x" true)]).
  reflexivity.
Defined.

Lemma updateValue_commutes_api_key_region :
  updateValue "api_key" (VString "k")
    (updateValue "region" (VString "eu")
       [("api_key", textField "x" true); ("region", textField "y" false)])
  = updateValue "region" (VString "eu")
      (updateValue "api_key" (VString "k")
         [("api_key", textField "x" true); ("region", textField "y" false)]).
Proof.
  apply (updateValue_commutes Z "api_key" "region" (VString "k") (VString "eu")
           [("api_key", textField "x" true); ("region", textField "y" false)]
           (textField "x" true) (textField "y" false)).
  - discriminate.
  - reflexivity.
  - reflexivity.
Defined.

(** A new key that is an array index is placed before the names. *)
Lemma updateValue_keeps_shape_index :
  obj_wf (updateValue "7" (VString "v")
            [("12", textField "a" true); ("name", textField "b" false)]) = true.
Proof.
  apply (updateValue_keeps_shape Z "7" (VString "v")
           [("12", textField "a" true); ("name", textField "b" false)]).
  reflexivity.
Defined.

Lemma first_blank_field_is_reported_region :
  handleSubmit Integer_toString host (propsOf "credentials") accepting
    ([("api_key", textField "x" true)]
     ++ ("region", textField "  " true) :: [("zone", textField EmptyString true)])%list
  = ([EvAlert "region is required"], Return).
Proof.
  apply (first_blank_field_is_reported Z Integer_toString host
           (propsOf "credentials") accepting
           [("api_key", textField "x" true)] [("zone", textField EmptyString true)]
           "region" (textField "  " true));
    reflexivity.
Defined.

Lemma filling_a_blank_field_makes_progress_region :
  S (missingCount Integer_toString
       (updateValue "region" (VString "eu")
          [("api_key", textField "x" true); ("region", textField "  " true)]))
  = missingCount Integer_toString
      [("api_key", textField "x" true); ("region", textField "  " true)]
  /\ (missingCount Integer_toString
        [("api_key", textField "x" true); ("region", textField "  " true)] = 1 ->
      requiredFilled Integer_toString
        (updateValue "region" (VString "eu")
           [("api_key", textField "x" true); ("region", textField "  " true)])
      = true).
Proof.
  apply (filling_a_blank_field_makes_progress Z Integer_toString "region"
           (VString "eu")
           [("api_key", textField "x" true); ("region", textField "  " true)]
           (textField "  " true));
    reflexivity.
Defined.

Lemma listValue_round_trip_a_b_c :
  exists items,
    listValue Integer_toString (VString "a,b,c")
    = JArray (map (fun s => JPrim (VString s)) items)
    /\ String.concat "," items = "a,b,c".
Proof.
  apply (listValue_round_trip Z Integer_toString (VString "a,b,c")).
  simpl. intros seg [<-|[<-|[<-|[]]]]; reflexivity.
Defined.

Lemma rejected_field_is_starred_and_blank_region :
  exists control,
    renderField Integer_toString
      [("api_key", textField "x" true); ("region", textField "  " true)] "region"
    = Some {| rowKey := "region"; rowLabel := "region *"; rowControl := control |}
    /\ trim (shownOf control) = EmptyString.
Proof.
  apply (rejected_field_is_starred_and_blank Z Integer_toString
           [("api_key", textField "x" true); ("region", textField "  " true)]
           "region" (textField "  " true));
    reflexivity.
Defined.

Lemma edit_changes_only_what_is_shown_region :
  renderField Integer_toString
    (onChange Integer_ofString "region" (Input "text" "y" EmptyString) "eu"
       [("api_key", textField "x" true); ("region", textField "y" true)])
    "region"
  = Some {| rowKey := "region"; rowLabel := "region *";
            rowControl := Input "text" "eu" EmptyString |}.
Proof.
  apply (edit_changes_only_what_is_shown Z Integer_toString Integer_ofString
           [("api_key", textField "x" true); ("region", textField "y" true)]
           "region" (textField "y" true) "eu").
  reflexivity.
Defined.

Lemma number_input_is_never_blank_retries :
  exists c',
    obj_get "retries"
      (onChange Integer_ofString "retries" (Input "number" "3" EmptyString)
         EmptyString [("retries", countField 3 true)])
    = Some c'
    /\ value c' = VNumber 0%Z
    /\ missingRequired Integer_toString c' = false.
Proof.
  apply (number_input_is_never_blank Z Integer_toString Integer_ofString
           [("retries", countField 3 true)] "retries" (countField 3 true)
           "3" EmptyString EmptyString).
  - exact Integer_toString_not_blank.
  - reflexivity.
  - reflexivity.
Defined.

Lemma false_and_zero_reach_the_request :
  exists r post,
    fst (handleSubmit Integer_toString host (propsOf "credentials") accepting
           [("enabled", flagField false true); ("retries", countField 0 true)])
    = EvSendRequest r :: post.
Proof.
  destruct required_check_reads_the_string_form as (_ & _ & _ & Hsubmit).
  apply (Hsubmit host (propsOf "credentials") accepting
           [("enabled", flagField false true); ("retries", countField 0 true)]).
  - intros k c [H|[H|[]]]; injection H as <- <-.
    + left. now exists false.
    + right. exists 0%Z. split; [reflexivity|]. simpl. lia.
  - reflexivity.
Defined.
